(** * Learning Object Wrapper: content-type detection, configuration
      resolution and iframe resize negotiation

    A shallow embedding of [contentPlugins.js] ([detectType]) and of the
    [LearningObjectWrapper] class of [wrapper.js] ([detectTheme],
    [getContentHeight], [sendResizeMessage], [debouncedResize],
    [forceResize], [loadManifest], [loadDefaultTranscript]).

    Conventions.
    - A JavaScript string is a [string]: a sequence of code units below 256.
    - A DOM length ([scrollHeight], [offsetHeight], [innerWidth]) is a [Z];
      the height of a bounding rectangle is a [Q] (every finite double is a
      rational) and [Math.ceil] is [Qceiling].
    - What the browser decides (URL parsing, media queries, layout, the
      network) enters the functions as an argument. *)

From Stdlib Require Import Bool List ZArith QArith Qround Lia.
From Stdlib Require Import Ascii String.
Import ListNotations.

Local Open Scope string_scope.

(** ** JavaScript string primitives *)

Module JsString.

(** [c] is an upper-case letter of the first 256 code points: A-Z, or
    U+00C0-U+00DE without the multiplication sign U+00D7. *)
Definition is_upper (c : ascii) : bool :=
  let n := N_of_ascii c in
  ((65 <=? n) && (n <=? 90) || (192 <=? n) && (n <=? 222) && negb (n =? 215))%N.

Definition lower_char (c : ascii) : ascii :=
  if is_upper c then ascii_of_N (N_of_ascii c + 32) else c.

(** [String.prototype.toLowerCase] *)
Fixpoint toLowerCase (s : string) : string :=
  match s with
  | EmptyString => EmptyString
  | String c s' => String (lower_char c) (toLowerCase s')
  end.

(** [String.prototype.includes]: [sub] occurs somewhere in [s]. *)
Fixpoint includes (s sub : string) : bool :=
  String.prefix sub s ||
  match s with
  | EmptyString => false
  | String _ s' => includes s' sub
  end.

(** [String.prototype.split] with a one-character separator; the result is
    never empty. *)
Fixpoint split (sep : ascii) (s : string) : list string :=
  match s with
  | EmptyString => [EmptyString]
  | String c s' =>
      if Ascii.eqb c sep then EmptyString :: split sep s'
      else match split sep s' with
           | [] => [String c EmptyString]
           | seg :: segs => String c seg :: segs
           end
  end.

(** [Array.prototype.pop] on the array returned by [split]: its last
    element. *)
Definition pop (segs : list string) : string := List.last segs EmptyString.

(** [Array.prototype.includes] on an array of strings. *)
Definition includes_arr (l : list string) (x : string) : bool :=
  existsb (String.eqb x) l.

End JsString.

(** ** contentPlugins.js *)

Module ContentPlugins.
Import JsString.

Definition video_exts : list string := ["mp4"; "webm"; "ogg"; "mov"; "avi"].
Definition model_exts : list string := ["glb"; "gltf"; "obj"; "fbx"; "3ds"].

(** [src.split('.').pop().toLowerCase()] *)
Definition ext_of (src : string) : string := toLowerCase (pop (split "." src)).

Definition is_video_host (host : string) : bool :=
  includes host "youtube.com" || includes host "vimeo.com".

Definition is_h5p (host src : string) : bool :=
  includes host "h5p.org" || includes src "/h5p/" || includes src "h5p".

(** The extensions the specification documents, with their types. *)
Definition documented_type (ext : string) : option string :=
  if includes_arr video_exts ext then Some "video"
  else if includes_arr model_exts ext then Some "model"
  else if ext =? "ply" then Some "supersplat"
  else if ext =? "pdf" then Some "pdf"
  else None.

Section DetectType.

(** [url_hostname src] is the [hostname] of [new URL(src, window.location.href)],
    and [None] when the constructor throws. *)
Variable url_hostname : string -> option string.

Definition detectType (src : string) : string :=
  if src =? "" then "iframe"
  else
    match url_hostname src with
    | None => "iframe"   (* the catch block *)
    | Some hostname =>
        let ext := ext_of src in
        if is_video_host hostname || includes_arr video_exts ext then "video"
        else if includes_arr model_exts ext then "model"
        else if ext =? "pdf" then "pdf"
        else if ext =? "ply" then "supersplat"
        else if is_h5p hostname src then "h5p"
        else "iframe"
    end.

(** The variant of [detectType] shipped next to the dynamic plugin loader
    tests [ply] before [pdf]. *)
Definition detectType_dynamic (src : string) : string :=
  if src =? "" then "iframe"
  else
    match url_hostname src with
    | None => "iframe"
    | Some hostname =>
        let ext := ext_of src in
        if is_video_host hostname || includes_arr video_exts ext then "video"
        else if includes_arr model_exts ext then "model"
        else if ext =? "ply" then "supersplat"
        else if ext =? "pdf" then "pdf"
        else if is_h5p hostname src then "h5p"
        else "iframe"
    end.

End DetectType.

(** A page served from [example.org] that resolves every source against
    itself: the hostname is the page's own. *)
Definition same_origin_page : string -> option string :=
  fun _ => Some "example.org".

(** What the URL constructor yields on a page of [example.org] for two
    sources with the scheme [foo]: the host of a URL whose scheme is not a
    special one (http, https, ftp, file, ws, wss) keeps its letter case.
    Every other source is resolved against the page. *)
Definition opaque_host_page (src : string) : option string :=
  if src =? "foo://YOUTUBE.COM/A.GLB" then Some "YOUTUBE.COM"
  else if src =? "foo://youtube.com/a.glb" then Some "youtube.com"
  else Some "example.org".

(** [c] occurs in [s]. *)
Fixpoint has_char (c : ascii) (s : string) : bool :=
  match s with
  | EmptyString => false
  | String a s' => Ascii.eqb a c || has_char c s'
  end.

(** The plugins the loader can return. *)
Inductive Plugin :=
| VideoPlugin | ModelPlugin | IframePlugin | H5pPlugin | SuperSplatPlugin.

(** [getPlugin(type)], the [switch] of the dynamic plugin loader: the
    plugin whose [load] function is returned. *)
Definition getPlugin (type : string) : Plugin :=
  if type =? "video" then VideoPlugin
  else if type =? "model" then ModelPlugin
  else if type =? "pdf" then IframePlugin
  else if type =? "h5p" then H5pPlugin
  else if type =? "supersplat" then SuperSplatPlugin
  else IframePlugin.   (* case 'iframe': default: *)

End ContentPlugins.

(** ** plugins/videoPlugin.js *)

Module VideoPlugin.
Import JsString.

(** [detectVideoType(src)] on a string. *)
Definition detectVideoType (src : string) : string :=
  if src =? "" then "html5"
  else if includes src "youtube.com" || includes src "youtu.be" then "youtube"
  else if includes src "vimeo.com" then "vimeo"
  else "html5".

End VideoPlugin.

(** ** utils/logger.js *)

Module Logger.
Import JsString.

Definition levels : list string := ["debug"; "info"; "warn"; "error"].

(** [Array.prototype.indexOf]: -1 when [x] is not in the array. *)
Fixpoint indexOf_from (i : Z) (l : list string) (x : string) : Z :=
  match l with
  | [] => (-1)%Z
  | y :: l' => if y =? x then i else indexOf_from (i + 1)%Z l' x
  end.

Definition indexOf (l : list string) (x : string) : Z := indexOf_from 0 l x.

(** The initial value of [current]: [env] is
    [import.meta.env.VITE_LOG_LEVEL], [None] when it is not available. *)
Definition initial_level (env : option string) : string :=
  match env with
  | Some v => if v =? "" then "warn" else toLowerCase v
  | None => "warn"
  end.

Definition shouldLog (current level : string) : bool :=
  (indexOf levels current <=? indexOf levels level)%Z.

(** [logger.setLevel(level)]: the new value of [current]. *)
Definition setLevel (current level : string) : string :=
  if includes_arr levels level then level else current.

(** Whether [logger.debug], [info], [warn] and [error] reach the console. *)
Definition prints (current method : string) : bool :=
  if method =? "error" then true else shouldLog current method.

End Logger.

(** ** wrapper.js: the LearningObjectWrapper class *)

Module Wrapper.

(** *** Theme detection *)

(** JavaScript truthiness of a value that is a string or undefined/null. *)
Definition truthy (v : option string) : bool :=
  match v with
  | Some s => negb (s =? "")
  | None => false
  end.

(** The two media queries [detectTheme] asks [window.matchMedia] about. *)
Record MediaQueries := {
  prefers_contrast_high : bool;   (* '(prefers-contrast: high)' *)
  prefers_color_scheme_dark : bool (* '(prefers-color-scheme: dark)' *)
}.

(** The part of [detectTheme] that asks the system: high contrast first,
    then dark mode, then the light default. *)
Definition system_theme (mq : MediaQueries) : string :=
  if prefers_contrast_high mq then "high-contrast"
  else if prefers_color_scheme_dark mq then "dark"
  else "light".

(** [theme] is [this.config.theme]. *)
Definition detectTheme (theme : option string) (mq : MediaQueries) : string :=
  match theme with
  | Some t =>
      if truthy (Some t) && negb (t =? "auto") then t else system_theme mq
  | None => system_theme mq
  end.

(** *** Resize negotiation *)

(** What the layout engine reports when the wrapper measures itself. *)
Record Layout := {
  (* height of '.lo-wrapper'.getBoundingClientRect(); None when the element
     is not in the container *)
  containerHeight : option Q;
  bodyScrollHeight : Z;   (* document.body.scrollHeight *)
  bodyOffsetHeight : Z;   (* document.body.offsetHeight *)
  docOffsetHeight : Z;    (* document.documentElement.offsetHeight *)
  innerWidth : Z          (* window.innerWidth *)
}.

(** [this.state], the fields the resize code and the lifecycle use. *)
Record State := {
  isReady : bool;
  currentTheme : string;
  transcriptVisible : bool;
  lastHeight : Z;
  lastWidth : Z;
  resizeTimer : option nat   (* null, or the id setTimeout returned *)
}.

Definition initial_state : State :=
  {| isReady := false; currentTheme := "light"; transcriptVisible := false;
     lastHeight := 0; lastWidth := 0; resizeTimer := None |}.

Definition set_last (st : State) (h w : Z) : State :=
  {| isReady := isReady st; currentTheme := currentTheme st;
     transcriptVisible := transcriptVisible st;
     lastHeight := h; lastWidth := w; resizeTimer := resizeTimer st |}.

Definition set_resizeTimer (st : State) (t : option nat) : State :=
  {| isReady := isReady st; currentTheme := currentTheme st;
     transcriptVisible := transcriptVisible st;
     lastHeight := lastHeight st; lastWidth := lastWidth st;
     resizeTimer := t |}.

(** The payload of [window.parent.postMessage(..., '*')]. *)
Record Message := { subject : string; height : Z }.

Definition FALLBACK_HEIGHT : Z := 400.

(** [Math.min(...l)] on a non-empty array of integers. *)
Definition min_list (x : Z) (l : list Z) : Z := fold_left Z.min l x.

(** The document measurements that pass the [h > 0] filter. *)
Definition validHeights (lay : Layout) : list Z :=
  filter (fun h => 0 <? h)%Z
    [bodyScrollHeight lay; bodyOffsetHeight lay; docOffsetHeight lay].

(** The wrapper element is absent or its rectangle has no positive height. *)
Definition no_container_height (lay : Layout) : Prop :=
  match containerHeight lay with
  | Some q => q <= 0
  | None => True
  end.

Definition getContentHeight (lay : Layout) : Z :=
  let fallback :=
    match validHeights lay with
    | h :: hs => min_list h hs
    | [] =>
        (* bodyScrollHeight || 400 *)
        if (bodyScrollHeight lay =? 0)%Z then FALLBACK_HEIGHT
        else bodyScrollHeight lay
    end in
  match containerHeight lay with
  | Some containerHeight =>
      if negb (Qle_bool containerHeight 0) then Qceiling containerHeight
      else fallback
  | None => fallback
  end.

Definition resize_message (h : Z) : Message :=
  {| subject := "lti.frameResize"; height := h |}.

(** [embedded] is [window.parent !== window]. The result is the new state
    and the messages posted to the parent frame by this call. *)
Definition sendResizeMessage (embedded : bool) (lay : Layout) (st : State)
  : State * list Message :=
  if negb embedded then (st, [])
  else
    let height := getContentHeight lay in
    let width := innerWidth lay in
    if ((1 <? Z.abs (height - lastHeight st)) || negb (width =? lastWidth st))%Z
    then (set_last st height width, [resize_message height])
    else (st, []).

(** [lay] is the layout measured after the display toggle that forces a
    reflow; the toggle restores the element's display value. *)
Definition forceResize (embedded : bool) (lay : Layout) (st : State)
  : State * list Message :=
  if negb embedded then (st, [])
  else
    let height := getContentHeight lay in
    let width := innerWidth lay in
    (set_last st height width, [resize_message height]).

(** *** The debounce timer

    The browser's timer table, as far as [debouncedResize] uses it: the
    clock in milliseconds, the next id [setTimeout] hands out, and the
    pending timeouts with their id and due time. Every timeout of this table
    has the callback of [debouncedResize], [() => this.sendResizeMessage()].
    [cycles] counts how often that callback has run and [outbox] collects
    the messages it has posted. *)
Record Browser := {
  now : Z;
  nextTimerId : nat;
  timers : list (nat * Z);
  cycles : nat;
  outbox : list Message
}.

Definition DEBOUNCE_DELAY : Z := 100.

(** [setTimeout(callback, delay)]: the new table and the id returned. *)
Definition setTimeout (b : Browser) (delay : Z) : Browser * nat :=
  ({| now := now b; nextTimerId := S (nextTimerId b);
      timers := timers b ++ [(nextTimerId b, (now b + delay)%Z)];
      cycles := cycles b; outbox := outbox b |},
   nextTimerId b).

(** [clearTimeout(id)]: nothing happens for null and for an id that is not
    pending. *)
Definition clearTimeout (b : Browser) (id : option nat) : Browser :=
  match id with
  | None => b
  | Some i =>
      {| now := now b; nextTimerId := nextTimerId b;
         timers := filter (fun t => negb (Nat.eqb (fst t) i)) (timers b);
         cycles := cycles b; outbox := outbox b |}
  end.

Definition debouncedResize (b : Browser) (st : State) : Browser * State :=
  let b1 := clearTimeout b (resizeTimer st) in
  let (b2, id) := setTimeout b1 DEBOUNCE_DELAY in
  (b2, set_resizeTimer st (Some id)).

(** No timeout of [debouncedResize] is pending, or one is and its id is the
    one stored in [this.state.resizeTimer]. *)
Definition pending_ok (b : Browser) (st : State) : Prop :=
  timers b = [] \/
  exists id due, timers b = [(id, due)] /\ resizeTimer st = Some id.

(** [debouncedResize] has just run: its timeout is the only pending one,
    and [c] callbacks have run so far. *)
Definition armed (bs : Browser * State) (c : nat) : Prop :=
  exists id,
    timers (fst bs) = [(id, (now (fst bs) + DEBOUNCE_DELAY)%Z)] /\
    resizeTimer (snd bs) = Some id /\ cycles (fst bs) = c.

Section EventLoop.

(** The page: whether it is framed, and what the layout engine would
    measure at a given time. *)
Variable embedded : bool.
Variable layoutAt : Z -> Layout.

(** One timeout fires at time [t]: its callback runs [sendResizeMessage]. *)
Definition run_callback (t : Z) (bs : Browser * State) : Browser * State :=
  let (b, st) := bs in
  let (st', msgs) := sendResizeMessage embedded (layoutAt t) st in
  ({| now := now b; nextTimerId := nextTimerId b; timers := timers b;
      cycles := S (cycles b); outbox := outbox b ++ msgs |}, st').

(** The clock moves on by [dt]: the timeouts that are due by then fire, in
    the order they were set, and leave the table. *)
Definition advance (dt : Z) (bs : Browser * State) : Browser * State :=
  let (b, st) := bs in
  let target := (now b + dt)%Z in
  let due := filter (fun t => (snd t <=? target)%Z) (timers b) in
  let later := filter (fun t => negb (snd t <=? target)%Z) (timers b) in
  let b0 := {| now := target; nextTimerId := nextTimerId b; timers := later;
               cycles := cycles b; outbox := outbox b |} in
  fold_left (fun acc t => run_callback (snd t) acc) due (b0, st).

(** A burst: one call of [debouncedResize], then for every gap of [gaps]
    the clock moves on by that gap and [debouncedResize] is called again.
    The result lists every table the browser went through, oldest first,
    and ends with the final one. *)
Fixpoint burst_from (gaps : list Z) (bs : Browser * State)
  : list (Browser * State) :=
  match gaps with
  | [] => [bs]
  | g :: gaps' =>
      let bs1 := advance g bs in
      let bs2 := debouncedResize (fst bs1) (snd bs1) in
      bs :: bs1 :: burst_from gaps' bs2
  end.

Definition burst (gaps : list Z) (bs : Browser * State)
  : list (Browser * State) :=
  bs :: burst_from gaps (debouncedResize (fst bs) (snd bs)).

(** The burst followed by a quiet period of [quiet] milliseconds. *)
Definition burst_then_quiet (gaps : list Z) (quiet : Z) (bs : Browser * State)
  : list (Browser * State) :=
  let trace := burst gaps bs in
  trace ++ [advance quiet (List.last trace bs)].

End EventLoop.

(** *** The other resize triggers *)

Definition set_isReady (st : State) (r : bool) : State :=
  {| isReady := r; currentTheme := currentTheme st;
     transcriptVisible := transcriptVisible st;
     lastHeight := lastHeight st; lastWidth := lastWidth st;
     resizeTimer := resizeTimer st |}.

(** The callback of the 500 ms width poll of [initializeResize], which is
    installed in a framed document only. *)
Definition widthPoll (lay : Layout) (b : Browser) (st : State)
  : Browser * State :=
  let currentWidth := innerWidth lay in
  if negb (currentWidth =? lastWidth st)%Z then debouncedResize b st
  else (b, st).

(** [triggerResize()]: a timeout of 100 ms whose id is not kept. *)
Definition triggerResize (b : Browser) : Browser := fst (setTimeout b 100).

Section Triggers.

Variable embedded : bool.
Variable layoutAt : Z -> Layout.

(** One call of [triggerResize], then for every gap of [gaps] the clock
    moves on by that gap and [triggerResize] is called again. *)
Fixpoint trigger_from (gaps : list Z) (bs : Browser * State)
  : Browser * State :=
  match gaps with
  | [] => bs
  | g :: gaps' =>
      let bs1 := advance embedded layoutAt g bs in
      trigger_from gaps' (triggerResize (fst bs1), snd bs1)
  end.

Definition trigger_burst (gaps : list Z) (bs : Browser * State)
  : Browser * State :=
  trigger_from gaps (triggerResize (fst bs), snd bs).

End Triggers.

(** The interval callback of [setupDynamicContentWatcher] (60 checks) and
    of the H5P fallback of [setupH5PResizeHandling] (30 checks): the
    counter, and whether the interval is still set. *)
Record Checker := { checkCount : nat; running : bool }.

Definition MAX_CHECKS : nat := 60.
Definition FALLBACK_MAX : nat := 30.

Definition new_checker : Checker := {| checkCount := 0; running := true |}.

(** The state of a poll: the checker, the resize state, the messages posted
    and the number of times [sendResizeMessage] was called. *)
Definition Poll : Type := Checker * State * list Message * nat.

(** 500 ms have passed: the callback runs if the interval is still set. *)
Definition checker_tick (maxChecks : nat) (embedded : bool)
  (acc : Poll) (lay : Layout) : Poll :=
  let '(c, st, posted, calls) := acc in
  if running c then
    let (st', msgs) := sendResizeMessage embedded lay st in
    let count := S (checkCount c) in
    ({| checkCount := count;
        running := negb (maxChecks <=? count)%nat |},
     st', (posted ++ msgs)%list, S calls)
  else acc.

(** The interval over the layouts found at the successive ticks. *)
Definition run_checker (maxChecks : nat) (embedded : bool)
  (layouts : list Layout) (st : State) : Poll :=
  fold_left (checker_tick maxChecks embedded) layouts
            (new_checker, st, [], 0%nat).

(** [k] timeouts have been set since the table had [c0] cycles and nothing
    pending: each has fired or is pending, and the pending ones are due
    within 100 ms. *)
Definition accounted (c0 k : nat) (b : Browser) : Prop :=
  (cycles b + List.length (timers b) = c0 + k)%nat /\
  Forall (fun t => (snd t <= now b + 100)%Z) (timers b).

Definition checker_of (p : Poll) : Checker := fst (fst (fst p)).
Definition posted_of (p : Poll) : list Message := snd (fst p).
Definition calls_of (p : Poll) : nat := snd p.

(** *** Configuration, manifest and transcripts *)

Record Transcript := {
  tr_language : string;
  tr_url : string;
  tr_default : bool    (* truthiness of the entry's [default] *)
}.

Record Link := { link_text : option string; link_url : option string }.

Record Attribution := {
  at_title : option Link;
  at_author : option Link;
  at_license : option Link
}.

(** The manifest document; an absent key is [None]. *)
Record Manifest := {
  m_id : option string;
  m_type : option string;
  m_title : option string;
  m_src : option string;
  m_showHeader : option bool;
  m_transcripts : option (list Transcript);
  m_attribution : option Attribution
}.

(** [this.config]; a field that holds undefined or null is [None]. *)
Record Config := {
  cfg_type : option string;
  cfg_title : option string;
  cfg_showHeader : bool;
  cfg_manifestUrl : option string;
  cfg_theme : option string;
  cfg_backgroundColor : option string;
  cfg_id : option string;
  cfg_src : option string;
  cfg_transcripts : option (list Transcript);
  cfg_attribution : option Attribution
}.

(** The object handed to the constructor (the embedding page builds it from
    the URL parameters); a key that is not given is [None]. *)
Record Options := {
  opt_type : option string;
  opt_title : option string;
  opt_showHeader : option bool;
  opt_manifestUrl : option string;
  opt_theme : option string;
  opt_backgroundColor : option string;
  opt_id : option string;
  opt_src : option string
}.

Definition or_default {A} (given : option A) (default : option A) : option A :=
  match given with
  | Some v => Some v
  | None => default
  end.

(** The constructor's [{ type: 'auto', title: '', ..., ...config }]. *)
Definition constructor_config (o : Options) : Config :=
  {| cfg_type := or_default (opt_type o) (Some "auto");
     cfg_title := or_default (opt_title o) (Some "");
     cfg_showHeader := match opt_showHeader o with Some h => h | None => false end;
     cfg_manifestUrl := opt_manifestUrl o;
     cfg_theme := or_default (opt_theme o) (Some "auto");
     cfg_backgroundColor := opt_backgroundColor o;
     cfg_id := opt_id o;
     cfg_src := opt_src o;
     cfg_transcripts := None;
     cfg_attribution := None |}.

Definition set_title (c : Config) (v : option string) : Config :=
  {| cfg_type := cfg_type c; cfg_title := v; cfg_showHeader := cfg_showHeader c;
     cfg_manifestUrl := cfg_manifestUrl c; cfg_theme := cfg_theme c;
     cfg_backgroundColor := cfg_backgroundColor c; cfg_id := cfg_id c;
     cfg_src := cfg_src c; cfg_transcripts := cfg_transcripts c;
     cfg_attribution := cfg_attribution c |}.

Definition set_type (c : Config) (v : option string) : Config :=
  {| cfg_type := v; cfg_title := cfg_title c; cfg_showHeader := cfg_showHeader c;
     cfg_manifestUrl := cfg_manifestUrl c; cfg_theme := cfg_theme c;
     cfg_backgroundColor := cfg_backgroundColor c; cfg_id := cfg_id c;
     cfg_src := cfg_src c; cfg_transcripts := cfg_transcripts c;
     cfg_attribution := cfg_attribution c |}.

Definition set_transcripts (c : Config) (v : option (list Transcript)) : Config :=
  {| cfg_type := cfg_type c; cfg_title := cfg_title c;
     cfg_showHeader := cfg_showHeader c;
     cfg_manifestUrl := cfg_manifestUrl c; cfg_theme := cfg_theme c;
     cfg_backgroundColor := cfg_backgroundColor c; cfg_id := cfg_id c;
     cfg_src := cfg_src c; cfg_transcripts := v;
     cfg_attribution := cfg_attribution c |}.

Definition set_attribution (c : Config) (v : option Attribution) : Config :=
  {| cfg_type := cfg_type c; cfg_title := cfg_title c;
     cfg_showHeader := cfg_showHeader c;
     cfg_manifestUrl := cfg_manifestUrl c; cfg_theme := cfg_theme c;
     cfg_backgroundColor := cfg_backgroundColor c; cfg_id := cfg_id c;
     cfg_src := cfg_src c; cfg_transcripts := cfg_transcripts c;
     cfg_attribution := v |}.

(** [transcripts.find(t => t.default) || transcripts[0]] *)
Definition default_transcript (ts : list Transcript) : option Transcript :=
  match find tr_default ts with
  | Some t => Some t
  | None => hd_error ts
  end.

(** [loadTranscript(language)]: the entry whose [url] is fetched; [None]
    when no entry has that language and the method returns after a
    warning. *)
Definition loadTranscript (ts : list Transcript) (language : string)
  : option Transcript :=
  find (fun t => tr_language t =? language) ts.

(** The last entry of the list that is marked default, if there is one. *)
Definition last_default (ts : list Transcript) : option Transcript :=
  find tr_default (rev ts).

(** [loadDefaultTranscript()]: the entry whose [url] is fetched for the
    initial transcript load. *)
Definition loadDefaultTranscript (ts : list Transcript) : option Transcript :=
  match default_transcript ts with
  | Some defaultTranscript => loadTranscript ts (tr_language defaultTranscript)
  | None => None
  end.

(** *** Loading the manifest *)

Inductive Exn :=
| FetchFailed                (* fetch() rejects: network error *)
| Error (message : string)   (* new Error(message) *)
| SyntaxError                (* response.json() rejects *)
| TypeError.                 (* property access on null *)

(** What [response.json()] yields. *)
Inductive Body :=
| BodyInvalid                     (* not JSON *)
| BodyNull                        (* the JSON value null *)
| BodyManifest (m : Manifest).

(** What [fetch(this.config.manifestUrl)] yields. *)
Inductive FetchResult :=
| Rejected
| Response (ok : bool) (statusText : string) (body : Body).

(** What the manifest code does to the document. *)
Inductive UiAction :=
| InsertHeader (title : option string)
| SetTitleText (title : option string)
| AppendTranscriptSection (languageSelector : bool)
| FetchTranscript (url : string)
| AppendAttributionFooter (a : Attribution).

(** The wrapper and its page, as far as [loadManifest] touches them. *)
Record Page := {
  config : Config;
  has_wrapper : bool;   (* container.querySelector('.lo-wrapper') is not null *)
  has_content : bool;   (* the wrapper has a '.lo-content' element *)
  has_title : bool;     (* container.querySelector('.lo-title') is not null *)
  ui : list UiAction;   (* changes made to the document, oldest first *)
  warnings : list Exn   (* arguments of logger.warn, oldest first *)
}.

Definition set_config (p : Page) (c : Config) : Page :=
  {| config := c; has_wrapper := has_wrapper p; has_content := has_content p;
     has_title := has_title p; ui := ui p; warnings := warnings p |}.

Definition add_ui (p : Page) (a : UiAction) : Page :=
  {| config := config p; has_wrapper := has_wrapper p;
     has_content := has_content p; has_title := has_title p;
     ui := ui p ++ [a]; warnings := warnings p |}.

Definition add_warning (p : Page) (e : Exn) : Page :=
  {| config := config p; has_wrapper := has_wrapper p;
     has_content := has_content p; has_title := has_title p;
     ui := ui p; warnings := warnings p ++ [e] |}.

(** Computations on the page that may throw: the page reached so far
    survives the exception. *)
Definition M (A : Type) : Type := Page -> Page * (Exn + A).

Definition ret {A} (a : A) : M A := fun p => (p, inr a).
Definition throw {A} (e : Exn) : M A := fun p => (p, inl e).
Definition bind {A B} (m : M A) (k : A -> M B) : M B :=
  fun p =>
    match m p with
    | (p', inl e) => (p', inl e)
    | (p', inr a) => k a p'
    end.
Definition get_config : M Config := fun p => (p, inr (config p)).
(** [this.config.field = v], with the setter of the field. *)
Definition assign {A} (setter : Config -> A -> Config) (v : A) : M unit :=
  fun p => (set_config p (setter (config p) v), inr tt).
Definition emit (a : UiAction) : M unit := fun p => (add_ui p a, inr tt).
Definition ask {A} (f : Page -> A) : M A := fun p => (p, inr (f p)).

(** [try { body } catch (error) { handler(error) }] *)
Definition try_catch {A} (body : M A) (handler : Exn -> M A) : M A :=
  fun p =>
    match body p with
    | (p', inl e) => handler e p'
    | (p', inr a) => (p', inr a)
    end.

Notation "x <- m ;; k" := (bind m (fun x => k))
  (at level 61, m at next level, right associativity).
Notation "m ;;; k" := (bind m (fun _ => k))
  (at level 61, right associativity).

(** [v === 'auto'] *)
Definition is_auto (v : option string) : bool :=
  match v with
  | Some s => s =? "auto"
  | None => false
  end.

(** The fetch did not deliver a manifest: the request was rejected, the
    response is not ok (a 404, say), or the body is not JSON. *)
Definition fetch_failed (fetched : FetchResult) : bool :=
  match fetched with
  | Rejected => true
  | Response ok _ body =>
      negb ok || match body with BodyInvalid => true | _ => false end
  end.

(** [manifest.key]: a TypeError when the manifest is null. *)
Definition prop {A} (manifest : option Manifest) (key : Manifest -> option A)
  : M (option A) :=
  match manifest with
  | Some m => ret (key m)
  | None => throw TypeError
  end.

Definition updateTitle (newTitle : option string) : M unit :=
  assign set_title newTitle ;;;
  titleElement <- ask has_title ;;
  if titleElement then emit (SetTitleText newTitle) else ret tt.

Definition updateHeaderAfterManifest : M unit :=
  c <- get_config ;;
  if negb (truthy (cfg_title c)) || negb (cfg_showHeader c) then ret tt
  else
    wrapperElement <- ask has_wrapper ;;
    (* wrapperElement.querySelector('.lo-content') *)
    contentElement <-
      (if wrapperElement then ask has_content else throw TypeError) ;;
    if wrapperElement && contentElement then emit (InsertHeader (cfg_title c))
    else ret tt.

Definition createTranscriptUI : M unit :=
  c <- get_config ;;
  match cfg_transcripts c with
  | None => ret tt
  | Some [] => ret tt
  | Some ts =>
      wrapperElement <- ask has_wrapper ;;
      if negb wrapperElement then ret tt
      else
        emit (AppendTranscriptSection (1 <? List.length ts)%nat) ;;;
        (* loadDefaultTranscript() runs up to its fetch *)
        match loadDefaultTranscript ts with
        | Some t => emit (FetchTranscript (tr_url t))
        | None => ret tt
        end
  end.

Definition createAttributionFooter : M unit :=
  c <- get_config ;;
  match cfg_attribution c with
  | None => ret tt
  | Some a =>
      wrapperElement <- ask has_wrapper ;;
      if negb wrapperElement then ret tt
      else
        match at_title a, at_author a, at_license a with
        | None, None, None => ret tt
        | _, _, _ => emit (AppendAttributionFooter a)
        end
  end.

(** The body of the [try] block of [loadManifest]. *)
Definition loadManifest_try (fetched : FetchResult) : M unit :=
  response <-
    match fetched with
    | Rejected => throw FetchFailed
    | Response ok statusText body => ret (ok, statusText, body)
    end ;;
  let '(ok, statusText, body) := response in
  (if negb ok then throw (Error ("Failed to load manifest: " ++ statusText))
   else ret tt) ;;;
  manifest <-
    match body with
    | BodyInvalid => throw SyntaxError
    | BodyNull => ret None
    | BodyManifest m => ret (Some m)
    end ;;
  c <- get_config ;;
  let hadTitle := truthy (cfg_title c) in
  title <- (if truthy (cfg_title c) then ret (cfg_title c)
            else prop manifest m_title) ;;
  assign set_title title ;;;
  c <- get_config ;;
  type <- (if is_auto (cfg_type c) then prop manifest m_type
           else ret (cfg_type c)) ;;
  assign set_type type ;;;
  c <- get_config ;;
  manifest_title <- prop manifest m_title ;;
  (if truthy manifest_title && cfg_showHeader c && negb hadTitle
   then updateHeaderAfterManifest
   else if truthy manifest_title && cfg_showHeader c && hadTitle
   then updateTitle (cfg_title c)
   else ret tt) ;;;
  transcripts <- prop manifest m_transcripts ;;
  (match transcripts with
   | Some ts =>
       assign set_transcripts (Some ts) ;;;
       createTranscriptUI
   | None => ret tt
   end) ;;;
  attribution <- prop manifest m_attribution ;;
  match attribution with
  | Some a =>
      assign set_attribution (Some a) ;;;
      createAttributionFooter
  | None => ret tt
  end.

(** [loadManifest()]: the catch block hands the error to [logger.warn]. *)
Definition loadManifest (fetched : FetchResult) : M unit :=
  try_catch (loadManifest_try fetched)
            (fun error => fun p => (add_warning p error, inr tt)).

(** [m] never changes [this.config.src]. *)
Definition keeps_src {A} (m : M A) : Prop :=
  forall p, cfg_src (config (fst (m p))) = cfg_src (config p).

(** The page after the constructor and [createWrapperStructure]: the
    options are merged over the defaults, the wrapper and content elements
    exist, and the header with its title element exists when the header is
    shown and the title is not empty. *)
Definition constructed_page (o : Options) : Page :=
  let c := constructor_config o in
  {| config := c; has_wrapper := true; has_content := true;
     has_title := cfg_showHeader c && truthy (cfg_title c);
     ui := []; warnings := [] |}.

(** [initialize()], from the manifest on: the manifest is loaded when a
    manifest URL is set. *)
Definition initialize (o : Options) (fetched : FetchResult)
  : Page * (Exn + unit) :=
  let p := constructed_page o in
  if truthy (cfg_manifestUrl (config p)) then loadManifest fetched p
  else (p, inr tt).

(** The configuration the wrapper ends up with. *)
Definition resolved_config (o : Options) (fetched : FetchResult) : Config :=
  config (fst (initialize o fetched)).

(** *** The parts of [loadManifest]'s try block *)

(** The statements that update the header, after the title and the type
    have been assigned; [hadTitle] was computed before. *)
Definition manifest_header (manifest : option Manifest) (hadTitle : bool)
  : M unit :=
  c <- get_config ;;
  manifest_title <- prop manifest m_title ;;
  if truthy manifest_title && cfg_showHeader c && negb hadTitle
  then updateHeaderAfterManifest
  else if truthy manifest_title && cfg_showHeader c && hadTitle
  then updateTitle (cfg_title c)
  else ret tt.

(** [if (manifest.transcripts) { ... }] *)
Definition manifest_transcripts (manifest : option Manifest) : M unit :=
  transcripts <- prop manifest m_transcripts ;;
  match transcripts with
  | Some ts =>
      assign set_transcripts (Some ts) ;;;
      createTranscriptUI
  | None => ret tt
  end.

(** [if (manifest.attribution) { ... }] *)
Definition manifest_attribution (manifest : option Manifest) : M unit :=
  attribution <- prop manifest m_attribution ;;
  match attribution with
  | Some a =>
      assign set_attribution (Some a) ;;;
      createAttributionFooter
  | None => ret tt
  end.

(** [m] never changes the part [f] of the configuration. *)
Definition keeps {X A} (f : Config -> X) (m : M A) : Prop :=
  forall p, f (config (fst (m p))) = f (config p).

(** [m] returns normally on a page with a wrapper element, and leaves the
    elements and the warnings of the page alone. *)
Definition quiet {A} (m : M A) : Prop :=
  forall p, has_wrapper p = true ->
    exists a, snd (m p) = inr a /\
              has_wrapper (fst (m p)) = true /\
              warnings (fst (m p)) = warnings p.

(** The transcript fetches among the changes made to the document. *)
Definition fetches (l : list UiAction) : list string :=
  flat_map (fun a => match a with FetchTranscript url => [url] | _ => [] end) l.

(** The page after the two assignments that open the try block, to the
    title and to the type, when the manifest is the object [m]. *)
Definition merged (m : Manifest) (p : Page) : Page :=
  let title := if truthy (cfg_title (config p)) then cfg_title (config p)
               else m_title m in
  let p0 := set_config p (set_title (config p) title) in
  let type := if is_auto (cfg_type (config p0)) then m_type m
              else cfg_type (config p0) in
  set_config p0 (set_type (config p0) type).

(** *** Escaping *)

Definition nbsp : ascii := ascii_of_N 160.

(** The text the HTML serializer writes for one character of a text node. *)
Definition escape_char (c : ascii) : string :=
  if Ascii.eqb c "&" then "&amp;"
  else if Ascii.eqb c nbsp then "&nbsp;"
  else if Ascii.eqb c "<" then "&lt;"
  else if Ascii.eqb c ">" then "&gt;"
  else String c EmptyString.

(** [escapeHtml(text)]: the [innerHTML] of a [div] whose [textContent] is
    [text]; the empty string for an empty text. *)
Fixpoint escapeHtml (text : string) : string :=
  match text with
  | EmptyString => EmptyString
  | String c text' => escape_char c ++ escapeHtml text'
  end.

(** [c] is one of the four characters the serializer replaces. *)
Definition is_escaped (c : ascii) : bool :=
  Ascii.eqb c "&" || Ascii.eqb c nbsp || Ascii.eqb c "<" || Ascii.eqb c ">".

Fixpoint has_escaped (s : string) : bool :=
  match s with
  | EmptyString => false
  | String c s' => is_escaped c || has_escaped s'
  end.

(** *** Events *)

Inductive Target := OnContainer | OnDocument.

(** The [detail] of the custom events the wrapper dispatches. *)
Inductive Detail :=
| ThemeChange (theme : string) (isSystemTheme : bool)
| AnalyticsTrack (action category label : string) (timestamp : Z).

Record Dispatch := { d_target : Target; d_name : string; d_detail : Detail }.

(** [dispatchEvent(eventName, detail)] of a wrapper that has a container:
    the event is dispatched on the container and then on the document. *)
Definition dispatchEvent (eventName : string) (detail : Detail)
  : list Dispatch :=
  [ {| d_target := OnContainer; d_name := eventName; d_detail := detail |};
    {| d_target := OnDocument; d_name := eventName; d_detail := detail |} ].

(** [timestamp] is [Date.now()]. *)
Definition trackContentEvent (timestamp : Z) (action category label : string)
  : list Dispatch :=
  dispatchEvent "analytics:track" (AnalyticsTrack action category label timestamp).

(** *** Applying a theme *)

(** The regular expression class [\w]. *)
Definition is_word (c : ascii) : bool :=
  let n := N_of_ascii c in
  ((48 <=? n) && (n <=? 57) || (65 <=? n) && (n <=? 90) ||
   (97 <=? n) && (n <=? 122) || (n =? 95))%N.

(** [/theme-\w+/] matches at the start of [s]. *)
Definition theme_match_at (s : string) : bool :=
  String.prefix "theme-" s &&
  match String.get 6 s with
  | Some c => is_word c
  | None => false
  end.

(** [s.replace(/theme-\w+/g, '')], scanning from the left: [skip] counts the
    characters of [theme-] still to drop, [inWord] says that the scan is
    inside a match and drops the word characters that follow. *)
Fixpoint strip_theme_from (skip : nat) (inWord : bool) (s : string) : string :=
  match s with
  | EmptyString => EmptyString
  | String c s' =>
      match skip with
      | S k => strip_theme_from k inWord s'
      | O =>
          if inWord && is_word c then strip_theme_from 0 true s'
          else if theme_match_at s then strip_theme_from 5 true s'
          else String c (strip_theme_from 0 false s')
      end
  end.

Definition strip_theme_classes (className : string) : string :=
  strip_theme_from 0 false className.

(** ASCII whitespace: tab, line feed, form feed, carriage return, space. *)
Definition is_space (c : ascii) : bool :=
  let n := N_of_ascii c in
  ((n =? 9) || (n =? 10) || (n =? 12) || (n =? 13) || (n =? 32))%N.

(** The pieces of [s] between whitespace characters, empty ones included. *)
Fixpoint fields (s : string) : list string :=
  match s with
  | EmptyString => [EmptyString]
  | String c s' =>
      if is_space c then EmptyString :: fields s'
      else match fields s' with
           | [] => [String c EmptyString]
           | f :: fs => String c f :: fs
           end
  end.

Definition mem (x : string) (l : list string) : bool :=
  existsb (String.eqb x) l.

(** Appending to an ordered set: a token that is in the set is dropped. *)
Fixpoint ordered_set (acc : list string) (l : list string) : list string :=
  match l with
  | [] => acc
  | x :: l' =>
      if mem x acc then ordered_set acc l'
      else ordered_set (acc ++ [x]) l'
  end.

(** The token set of a class attribute. *)
Definition class_tokens (className : string) : list string :=
  ordered_set [] (filter (fun f => negb (f =? "")) (fields className)).

Fixpoint has_space (s : string) : bool :=
  match s with
  | EmptyString => false
  | String c s' => is_space c || has_space s'
  end.

Inductive DomException := SyntaxErrorDom | InvalidCharacterError.

(** [element.classList.add(token)] on an element with the given class
    attribute: the new class attribute, or the exception thrown for an empty
    token or one with whitespace. *)
Definition classList_add (className token : string)
  : DomException + string :=
  if token =? "" then inl SyntaxErrorDom
  else if has_space token then inl InvalidCharacterError
  else
    let tokens := class_tokens className in
    inr (String.concat " "
           (if mem token tokens then tokens else (tokens ++ [token])%list)).

(** The '.lo-wrapper' element: its class attribute and the last value
    assigned to [style.backgroundColor]. *)
Record WrapperElement := {
  className : string;
  backgroundAssigned : option string
}.

(** The class attribute [createWrapperStructure] writes. *)
Definition created_className (theme : string) : string :=
  "lo-wrapper theme-" ++ theme.

Definition set_currentTheme (st : State) (theme : string) : State :=
  {| isReady := isReady st; currentTheme := theme;
     transcriptVisible := transcriptVisible st;
     lastHeight := lastHeight st; lastWidth := lastWidth st;
     resizeTimer := resizeTimer st |}.

(** The outcome of [applyTheme]: the wrapper element, the state, the events
    dispatched, and the exception if one was thrown. *)
Record Themed := {
  th_wrapper : option WrapperElement;
  th_state : State;
  th_events : list Dispatch;
  th_thrown : option DomException
}.

(** [applyTheme(theme)]; [w] is [container.querySelector('.lo-wrapper')]. *)
Definition applyTheme (c : Config) (theme : string)
  (w : option WrapperElement) (st : State) : Themed :=
  match w with
  | None => {| th_wrapper := None; th_state := st; th_events := [];
               th_thrown := None |}
  | Some el =>
      let stripped := strip_theme_classes (className el) in
      match classList_add stripped ("theme-" ++ theme) with
      | inl e =>
          {| th_wrapper := Some {| className := stripped;
                                   backgroundAssigned := backgroundAssigned el |};
             th_state := st; th_events := []; th_thrown := Some e |}
      | inr added =>
          {| th_wrapper :=
               Some {| className := added;
                       backgroundAssigned :=
                         if truthy (cfg_backgroundColor c)
                         then cfg_backgroundColor c
                         else backgroundAssigned el |};
             th_state := set_currentTheme st theme;
             th_events :=
               dispatchEvent "theme:change"
                 (ThemeChange theme (is_auto (cfg_theme c)));
             th_thrown := None |}
      end
  end.

(** The listener [setupThemeListener] adds: [matches] is [e.matches]. *)
Definition themeListener (c : Config) (matches : bool)
  (w : option WrapperElement) (st : State) : Themed :=
  let newTheme := if matches then "dark" else "light" in
  if negb (newTheme =? currentTheme st) then applyTheme c newTheme w st
  else {| th_wrapper := w; th_state := st; th_events := [];
          th_thrown := None |}.

(** The callbacks that are registered for [change] on the media query list
    of [this.state.mediaQuery]. The only callback the class ever registers
    is the arrow function of [setupThemeListener]. *)
Inductive Callback := ThemeArrow.

Definition MediaQueryList : Type := list Callback.

(** [removeEventListener('change', callback)]; a callback that is
    undefined removes nothing. *)
Definition removeEventListener (m : MediaQueryList) (callback : option Callback)
  : MediaQueryList :=
  match callback with
  | None => m
  | Some ThemeArrow =>
      match m with
      | [] => []
      | ThemeArrow :: m' => m'
      end
  end.

(** [setupThemeListener()]: the new value of [this.state.mediaQuery], which
    starts as null. [window.matchMedia] returns a fresh list. *)
Definition setupThemeListener (c : Config) (mediaQuery : option MediaQueryList)
  : option MediaQueryList :=
  if is_auto (cfg_theme c) then Some [ThemeArrow] else mediaQuery.

(** The system's colour scheme changes: the callbacks registered on the
    media query list run. *)
Definition color_scheme_changed (c : Config) (mediaQuery : option MediaQueryList)
  (matches : bool) (w : option WrapperElement) (st : State) : Themed :=
  match mediaQuery with
  | Some (ThemeArrow :: _) => themeListener c matches w st
  | _ => {| th_wrapper := w; th_state := st; th_events := [];
            th_thrown := None |}
  end.

(** [destroy()]. The class has no member [handleThemeChange], so the
    callback handed to [removeEventListener] is undefined; and a timer id
    of 0 is falsy. *)
Definition destroy (mediaQuery : option MediaQueryList) (b : Browser)
  (st : State) : option MediaQueryList * Browser * State :=
  let mediaQuery' :=
    match mediaQuery with
    | Some m => Some (removeEventListener m None)
    | None => None
    end in
  let b' :=
    match resizeTimer st with
    | Some id => if Nat.eqb id 0 then b else clearTimeout b (Some id)
    | None => b
    end in
  (mediaQuery', b', set_isReady st false).

(** *** Toggling the transcript *)

(** The '.lo-transcript' section: the [aria-hidden] of its content, the
    [aria-expanded] of its toggle and the text of its label, each [None]
    when the element is missing. *)
Record TranscriptSection := {
  content_aria_hidden : option string;
  toggle_aria_expanded : option string;
  label_text : option string
}.

(** The section as [createTranscriptUI] writes it. *)
Definition created_section : TranscriptSection :=
  {| content_aria_hidden := Some "true";
     toggle_aria_expanded := Some "false";
     label_text := Some "Show Transcript" |}.

Definition set_transcriptVisible (st : State) (v : bool) : State :=
  {| isReady := isReady st; currentTheme := currentTheme st;
     transcriptVisible := v;
     lastHeight := lastHeight st; lastWidth := lastWidth st;
     resizeTimer := resizeTimer st |}.

(** An assignment through [?.] or behind [if (label)]. *)
Definition set_if_present (el : option string) (v : string) : option string :=
  match el with
  | Some _ => Some v
  | None => None
  end.

Record Toggled := {
  tg_section : option TranscriptSection;
  tg_state : State;
  tg_browser : Browser;
  tg_events : list Dispatch
}.

(** [toggleTranscript()]; [section] is
    [container.querySelector('.lo-transcript')]. *)
Definition toggleTranscript (timestamp : Z) (section : option TranscriptSection)
  (st : State) (b : Browser) : Toggled :=
  let st' := set_transcriptVisible st (negb (transcriptVisible st)) in
  match section with
  | None => {| tg_section := None; tg_state := st'; tg_browser := b;
               tg_events := [] |}
  | Some sec =>
      if transcriptVisible st' then
        {| tg_section :=
             Some {| content_aria_hidden :=
                       set_if_present (content_aria_hidden sec) "false";
                     toggle_aria_expanded :=
                       set_if_present (toggle_aria_expanded sec) "true";
                     label_text :=
                       set_if_present (label_text sec) "Hide Transcript" |};
           tg_state := st';
           tg_browser := triggerResize b;
           tg_events :=
             trackContentEvent timestamp "transcript_show" "Transcript" "toggle" |}
      else
        {| tg_section :=
             Some {| content_aria_hidden :=
                       set_if_present (content_aria_hidden sec) "true";
                     toggle_aria_expanded :=
                       set_if_present (toggle_aria_expanded sec) "false";
                     label_text :=
                       set_if_present (label_text sec) "Show Transcript" |};
           tg_state := st';
           tg_browser := triggerResize b;
           tg_events :=
             trackContentEvent timestamp "transcript_hide" "Transcript" "toggle" |}
  end.

(** Every character of [s] is a word character. *)
Fixpoint all_word (s : string) : bool :=
  match s with
  | EmptyString => true
  | String c s' => is_word c && all_word s'
  end.

(** The section displays the transcript as visible, or as hidden. *)
Definition section_shows (sec : TranscriptSection) (visible : bool) : Prop :=
  content_aria_hidden sec = Some (if visible then "false" else "true") /\
  toggle_aria_expanded sec = Some (if visible then "true" else "false") /\
  label_text sec =
    Some (if visible then "Hide Transcript" else "Show Transcript").

End Wrapper.

(** ** The configuration resolver

    The page script that reads the query parameters, fetches the manifest
    and hands the resolved configuration to the wrapper and to the content
    plugin is not among the sources. *)

Module ConfigResolver.
Import JsString ContentPlugins Wrapper.






Section Resolve.

Variable url_hostname : string -> option string.


End Resolve.

End ConfigResolver.

(** * Properties *)

(** ** Strings *)

Module JsStringFacts.
Import JsString.

Lemma lower_char_idem c : lower_char (lower_char c) = lower_char c.
Proof.
  destruct c as [[] [] [] [] [] [] [] []]; vm_compute; reflexivity.
Qed.

Lemma lower_char_dot c : Ascii.eqb (lower_char c) "." = Ascii.eqb c ".".
Proof.
  destruct c as [[] [] [] [] [] [] [] []]; vm_compute; reflexivity.
Qed.

Lemma toLowerCase_idem s : toLowerCase (toLowerCase s) = toLowerCase s.
Proof.
  induction s as [|c s IH]; simpl; [reflexivity|].
  now rewrite lower_char_idem, IH.
Qed.

Lemma split_nonempty sep s : split sep s <> [].
Proof.
  destruct s as [|c s]; simpl; [discriminate|].
  destruct (Ascii.eqb c sep); [discriminate|].
  destruct (split sep s); discriminate.
Qed.

Lemma split_toLowerCase s :
  split "." (toLowerCase s) = map toLowerCase (split "." s).
Proof.
  induction s as [|c s IH]; simpl; [reflexivity|].
  rewrite lower_char_dot.
  destruct (Ascii.eqb c "."); simpl; [now rewrite IH|].
  rewrite IH.
  destruct (split "." s) as [|seg segs]; reflexivity.
Qed.

Lemma pop_map_toLowerCase l :
  l <> [] -> pop (map toLowerCase l) = toLowerCase (pop l).
Proof.
  unfold pop.
  induction l as [|x l IH]; [congruence|]; intros _.
  destruct l as [|y l]; [reflexivity|].
  change (last (map toLowerCase (x :: y :: l)) "")
    with (last (map toLowerCase (y :: l)) "").
  change (last (x :: y :: l) "") with (last (y :: l) "").
  apply IH; discriminate.
Qed.

Lemma toLowerCase_empty s : toLowerCase s = "" <-> s = "".
Proof. destruct s; simpl; split; congruence. Qed.

End JsStringFacts.

(** ** Content-type detection *)

Module DetectTypeFacts.
Import JsString JsStringFacts ContentPlugins.

Lemma ext_of_toLowerCase src : ext_of (toLowerCase src) = ext_of src.
Proof.
  unfold ext_of.
  rewrite split_toLowerCase, pop_map_toLowerCase by apply split_nonempty.
  apply toLowerCase_idem.
Qed.

(** The two copies of [detectType] in the repository differ in the order of
    the [pdf] and [ply] tests only, and compute the same function. *)
Lemma detectType_dynamic_eq url_hostname src :
  detectType_dynamic url_hostname src = detectType url_hostname src.
Proof.
  unfold detectType_dynamic, detectType.
  destruct (src =? ""); [reflexivity|].
  destruct (url_hostname src) as [host|]; [|reflexivity].
  destruct (is_video_host host || includes_arr video_exts (ext_of src));
    [reflexivity|].
  destruct (includes_arr model_exts (ext_of src)); [reflexivity|].
  destruct (String.eqb_spec (ext_of src) "ply") as [->|]; reflexivity.
Qed.

(** On a source with a documented extension the result is [video] on a
    video host and the documented type elsewhere. *)
Lemma detectType_documented url_hostname src host t :
  src <> "" -> url_hostname src = Some host ->
  documented_type (ext_of src) = Some t ->
  detectType url_hostname src = if is_video_host host then "video" else t.
Proof.
  intros Hne Hurl Hdoc. unfold detectType, documented_type in *.
  destruct (String.eqb_spec src "") as [|_]; [contradiction|].
  rewrite Hurl.
  destruct (is_video_host host); [reflexivity|]. cbn [orb].
  destruct (includes_arr video_exts (ext_of src)); [congruence|].
  destruct (includes_arr model_exts (ext_of src)); [congruence|].
  destruct (String.eqb_spec (ext_of src) "ply") as [->|];
    [simpl in *; congruence|].
  destruct (ext_of src =? "pdf"); congruence.
Qed.

Lemma detectType_undocumented url_hostname src host :
  src <> "" -> url_hostname src = Some host ->
  documented_type (ext_of src) = None ->
  detectType url_hostname src =
    if is_video_host host then "video"
    else if is_h5p host src then "h5p" else "iframe".
Proof.
  intros Hne Hurl Hdoc. unfold detectType, documented_type in *.
  destruct (String.eqb_spec src "") as [|_]; [contradiction|].
  rewrite Hurl.
  destruct (is_video_host host); [reflexivity|]. cbn [orb].
  destruct (includes_arr video_exts (ext_of src)); [congruence|].
  destruct (includes_arr model_exts (ext_of src)); [congruence|].
  destruct (String.eqb_spec (ext_of src) "ply") as [->|]; [simpl in Hdoc; congruence|].
  destruct (ext_of src =? "pdf"); [congruence|reflexivity].
Qed.

End DetectTypeFacts.

Import JsString ContentPlugins.

(** C2, as stated, fails: a source without a recognized extension is not
    always sent to the iframe fallback. On a page of [example.org] the
    source [lessons/h5p/quiz] has no documented extension and is detected
    as [h5p]. *)
Lemma detectType_undocumented_not_iframe :
  documented_type (ext_of "lessons/h5p/quiz") = None /\
  detectType same_origin_page "lessons/h5p/quiz" = "h5p" /\
  detectType same_origin_page "lessons/h5p/quiz" <> "iframe".
Proof. repeat split; try reflexivity; vm_compute; discriminate. Qed.

(** C2, amended: [detectType] on an empty source, or on one the URL
    constructor rejects, is [iframe]. On any other source it is [video]
    when the hostname contains [youtube.com] or [vimeo.com]; otherwise a
    documented extension (mp4, webm, ogg, mov, avi: video; glb, gltf, obj,
    fbx, 3ds: model; ply: supersplat; pdf: pdf) gives its documented type,
    and a source without one gives [h5p] when the hostname contains
    [h5p.org] or the source contains [h5p], and [iframe] otherwise. In
    particular [file.mp4] is a video whenever its URL parses, [scene.ply] is
    a supersplat and [doc.pdf] a pdf off the video hosts, and the empty
    source is an iframe. *)
Theorem detectType_by_extension_and_host :
  forall (url_hostname : string -> option string) (src : string),
    (src = "" \/ url_hostname src = None ->
     detectType url_hostname src = "iframe") /\
    (forall host, src <> "" -> url_hostname src = Some host ->
       (includes_arr video_exts (ext_of src) = true \/ is_video_host host = true ->
        detectType url_hostname src = "video") /\
       (forall t, is_video_host host = false ->
        documented_type (ext_of src) = Some t ->
        detectType url_hostname src = t) /\
       (is_video_host host = false ->
        documented_type (ext_of src) = None ->
        detectType url_hostname src =
          if is_h5p host src then "h5p" else "iframe")) /\
    (forall host, url_hostname "file.mp4" = Some host ->
       detectType url_hostname "file.mp4" = "video") /\
    (forall host, url_hostname "scene.ply" = Some host ->
       is_video_host host = false ->
       detectType url_hostname "scene.ply" = "supersplat") /\
    (forall host, url_hostname "doc.pdf" = Some host ->
       is_video_host host = false ->
       detectType url_hostname "doc.pdf" = "pdf") /\
    detectType url_hostname "" = "iframe".
Proof.
  intros url_hostname src. split; [|split; [|repeat split]].
  - intros [->|Hnone]; [reflexivity|].
    unfold detectType. rewrite Hnone. destruct (src =? ""); reflexivity.
  - intros host Hne Hurl. repeat split.
    + intros Hv. unfold detectType.
      destruct (String.eqb_spec src "") as [|_]; [contradiction|].
      rewrite Hurl. destruct Hv as [-> | ->]; [|reflexivity].
      now rewrite orb_true_r.
    + intros t Hhost Hdoc.
      rewrite (DetectTypeFacts.detectType_documented _ _ _ _ Hne Hurl Hdoc).
      now rewrite Hhost.
    + intros Hhost Hdoc.
      rewrite (DetectTypeFacts.detectType_undocumented _ _ _ Hne Hurl Hdoc).
      now rewrite Hhost.
  - intros host Hurl. unfold detectType. simpl. rewrite Hurl.
    now rewrite orb_true_r.
  - intros host Hurl Hhost. unfold detectType. simpl. rewrite Hurl, Hhost.
    reflexivity.
  - intros host Hurl Hhost. unfold detectType. simpl. rewrite Hurl, Hhost.
    reflexivity.
Qed.

Lemma detectType_by_extension_and_host_witness :
  detectType same_origin_page "models/chair.GLB" = "model" /\
  detectType same_origin_page "scene.ply" = "supersplat".
Proof.
  destruct (detectType_by_extension_and_host same_origin_page "models/chair.GLB")
    as (_ & Hsrc & _ & Hply & _).
  destruct (Hsrc "example.org") as (_ & Hdoc & _);
    [discriminate | reflexivity |].
  split.
  - apply Hdoc; reflexivity.
  - apply (Hply "example.org"); reflexivity.
Defined.

(** C10, as stated, fails: the extension is matched without regard to
    letter case, but the host is not. The source [foo://YOUTUBE.COM/A.GLB]
    is not empty and ends in a recognized extension up to case; its host
    keeps its capitals, so it is a model, while its lower-case form is on
    the host [youtube.com] and is a video. *)
Lemma detectType_case_changes_host :
  let src := "foo://YOUTUBE.COM/A.GLB" in
  src <> "" /\
  documented_type (toLowerCase (pop (split "." src))) = Some "model" /\
  detectType opaque_host_page src = "model" /\
  detectType opaque_host_page (toLowerCase src) = "video" /\
  detectType opaque_host_page src <>
    detectType opaque_host_page (toLowerCase src).
Proof.
  cbv zeta. split; [discriminate|]. split; [reflexivity|].
  split; [reflexivity|]. split; [reflexivity|]. vm_compute. discriminate.
Qed.

(** C10, amended: extension matching is case-insensitive. For every
    non-empty source whose final dot-separated segment is, up to letter
    case, a recognized extension, and whose URL resolves to the same host
    as the URL of its lower-case form, [detectType] returns what it returns
    for the lower-case form; [FILE.MP4] and [file.mp4] are both videos
    whenever their URLs parse. *)
Theorem detectType_extension_case_insensitive :
  forall (url_hostname : string -> option string) (src t : string),
    src <> "" ->
    documented_type (toLowerCase (pop (split "." src))) = Some t ->
    url_hostname (toLowerCase src) = url_hostname src ->
    detectType url_hostname src = detectType url_hostname (toLowerCase src) /\
    (forall host host',
       url_hostname "FILE.MP4" = Some host ->
       url_hostname "file.mp4" = Some host' ->
       detectType url_hostname "FILE.MP4" = "video" /\
       detectType url_hostname "file.mp4" = "video").
Proof.
  intros url_hostname src t Hne Hdoc Hurl. split.
  - fold (ext_of src) in Hdoc.
    destruct (url_hostname src) as [host|] eqn:Hhost.
    + rewrite (DetectTypeFacts.detectType_documented _ _ _ _ Hne Hhost Hdoc).
      symmetry. apply DetectTypeFacts.detectType_documented.
      * intros H. apply Hne. now apply JsStringFacts.toLowerCase_empty.
      * assumption.
      * now rewrite DetectTypeFacts.ext_of_toLowerCase.
    + unfold detectType. rewrite Hurl, Hhost.
      destruct (src =? ""), (toLowerCase src =? ""); reflexivity.
  - intros host host' H1 H2. unfold detectType. simpl. rewrite H1, H2.
    now rewrite !orb_true_r.
Qed.

Lemma detectType_extension_case_insensitive_witness :
  detectType same_origin_page "Clips/Intro.MoV" =
  detectType same_origin_page "clips/intro.mov".
Proof.
  apply (detectType_extension_case_insensitive
           same_origin_page "Clips/Intro.MoV" "video");
    [discriminate | reflexivity | reflexivity].
Defined.

(** ** Theme detection *)

Import Wrapper.

(** C7: theme resolution is a strict priority chain. An explicit theme (a
    non-empty string other than [auto]) is returned as it is; without one,
    a matching high-contrast query gives [high-contrast]; failing that, a
    matching dark-scheme query gives [dark]; failing that, the result is
    [light]. *)
Theorem detectTheme_priority_chain :
  forall (theme : option string) (mq : MediaQueries),
    (forall t, theme = Some t -> t <> "" -> t <> "auto" ->
       detectTheme theme mq = t) /\
    (theme = None \/ theme = Some "" \/ theme = Some "auto" ->
       (prefers_contrast_high mq = true ->
          detectTheme theme mq = "high-contrast") /\
       (prefers_contrast_high mq = false ->
        prefers_color_scheme_dark mq = true ->
          detectTheme theme mq = "dark") /\
       (prefers_contrast_high mq = false ->
        prefers_color_scheme_dark mq = false ->
          detectTheme theme mq = "light")).
Proof.
  intros theme mq. split.
  - intros t -> Hne Hauto. unfold detectTheme, truthy.
    destruct (String.eqb_spec t "") as [|_]; [contradiction|].
    destruct (String.eqb_spec t "auto") as [|_]; [contradiction|].
    reflexivity.
  - intros Hsys.
    assert (Hchain : detectTheme theme mq = system_theme mq)
      by (destruct Hsys as [-> | [-> | ->]]; reflexivity).
    rewrite Hchain. unfold system_theme.
    repeat split.
    + intros ->. reflexivity.
    + intros -> ->. reflexivity.
    + intros -> ->. reflexivity.
Qed.

Lemma detectTheme_priority_chain_witness :
  detectTheme (Some "dark")
    {| prefers_contrast_high := true; prefers_color_scheme_dark := false |}
    = "dark" /\
  detectTheme (Some "auto")
    {| prefers_contrast_high := true; prefers_color_scheme_dark := true |}
    = "high-contrast" /\
  detectTheme None
    {| prefers_contrast_high := false; prefers_color_scheme_dark := true |}
    = "dark" /\
  detectTheme (Some "")
    {| prefers_contrast_high := false; prefers_color_scheme_dark := false |}
    = "light".
Proof.
  split; [|split; [|split]].
  - apply (detectTheme_priority_chain (Some "dark")) with (t := "dark");
      [reflexivity | discriminate | discriminate].
  - apply (detectTheme_priority_chain (Some "auto"));
      [right; right; reflexivity | reflexivity].
  - apply (detectTheme_priority_chain None);
      [left; reflexivity | reflexivity | reflexivity].
  - apply (detectTheme_priority_chain (Some ""));
      [right; left; reflexivity | reflexivity | reflexivity].
Defined.

(** ** Height measurement *)

Module HeightFacts.

Lemma min_list_le_init l x : (min_list x l <= x)%Z.
Proof.
  unfold min_list. revert x.
  induction l as [|y l IH]; intros x; simpl; [lia|].
  specialize (IH (Z.min x y)). lia.
Qed.

Lemma min_list_lower_bound l x v :
  In v (x :: l) -> (min_list x l <= v)%Z.
Proof.
  revert x.
  induction l as [|y l IH]; intros x Hin.
  - destruct Hin as [->|[]]. unfold min_list. simpl. lia.
  - change (min_list x (y :: l)) with (min_list (Z.min x y) l).
    pose proof (min_list_le_init l (Z.min x y)) as Hle.
    destruct Hin as [->|[->|Hin]]; [lia | lia |].
    apply IH. right. exact Hin.
Qed.

Lemma min_list_in l x : In (min_list x l) (x :: l).
Proof.
  unfold min_list. revert x.
  induction l as [|y l IH]; intros x; simpl; [now left|].
  destruct (IH (Z.min x y)) as [H|H].
  - rewrite <- H. destruct (Z.min_spec x y) as [[_ ->]|[_ ->]]; auto.
  - auto.
Qed.

Lemma getContentHeight_fallback lay :
  no_container_height lay ->
  getContentHeight lay =
    match validHeights lay with
    | h :: hs => min_list h hs
    | [] => if (bodyScrollHeight lay =? 0)%Z then FALLBACK_HEIGHT
            else bodyScrollHeight lay
    end.
Proof.
  unfold no_container_height, getContentHeight, validHeights.
  destruct (containerHeight lay) as [q|]; [|reflexivity].
  intros Hq. apply Qle_bool_iff in Hq. rewrite Hq. reflexivity.
Qed.

End HeightFacts.

(** The cases of [getContentHeight] on every layout: the ceiling of the
    wrapper element's bounding-rectangle height when that height is
    positive; otherwise the minimum of the positive ones among the three
    document measurements when there is one; and when none of the three is
    positive, the fallback constant 400 for a body scroll height of zero and
    the body scroll height itself for a negative one, a value no document
    reports. *)
Theorem getContentHeight_spec :
  forall lay : Layout,
    (forall q, containerHeight lay = Some q -> 0 < q ->
       getContentHeight lay = Qceiling q) /\
    (no_container_height lay ->
       (validHeights lay <> [] ->
          In (getContentHeight lay) (validHeights lay) /\
          forall v, In v (validHeights lay) ->
                    (getContentHeight lay <= v)%Z) /\
       ((bodyScrollHeight lay <= 0)%Z -> (bodyOffsetHeight lay <= 0)%Z ->
        (docOffsetHeight lay <= 0)%Z ->
          (bodyScrollHeight lay = 0%Z ->
             getContentHeight lay = FALLBACK_HEIGHT) /\
          ((bodyScrollHeight lay < 0)%Z ->
             getContentHeight lay = bodyScrollHeight lay))).
Proof.
  intros lay. split.
  - intros q Hq Hpos. unfold getContentHeight. rewrite Hq.
    destruct (Qle_bool q 0) eqn:Hle; [|reflexivity].
    apply Qle_bool_iff in Hle.
    exfalso. apply (Qlt_irrefl 0). eapply Qlt_le_trans; eassumption.
  - intros Hno. rewrite (HeightFacts.getContentHeight_fallback lay Hno).
    split.
    + intros Hvalid.
      destruct (validHeights lay) as [|h hs]; [congruence|].
      split.
      * apply HeightFacts.min_list_in.
      * intros v Hv. now apply HeightFacts.min_list_lower_bound.
    + intros H1 H2 H3.
      assert (Hnil : validHeights lay = []).
      { unfold validHeights. simpl.
        destruct (Z.ltb_spec 0 (bodyScrollHeight lay)); [lia|].
        destruct (Z.ltb_spec 0 (bodyOffsetHeight lay)); [lia|].
        destruct (Z.ltb_spec 0 (docOffsetHeight lay)); [lia|].
        reflexivity. }
      rewrite Hnil. split.
      * intros ->. reflexivity.
      * intros Hneg.
        destruct (Z.eqb_spec (bodyScrollHeight lay) 0); [lia|reflexivity].
Qed.

(** C5: for every layout a document can report, that is, with a body
    scroll height that is not negative, [getContentHeight] returns the
    ceiling of the wrapper element's bounding-rectangle height whenever that
    height is positive; otherwise it returns the minimum of the positive
    ones among the three document measurements; and when none of the three
    is positive it returns the fallback constant 400. *)
Theorem getContentHeight_three_clauses :
  forall lay : Layout,
    (0 <= bodyScrollHeight lay)%Z ->
    (forall q, containerHeight lay = Some q -> 0 < q ->
       getContentHeight lay = Qceiling q) /\
    (no_container_height lay -> validHeights lay <> [] ->
       In (getContentHeight lay) (validHeights lay) /\
       forall v, In v (validHeights lay) -> (getContentHeight lay <= v)%Z) /\
    (no_container_height lay ->
     (bodyScrollHeight lay <= 0)%Z -> (bodyOffsetHeight lay <= 0)%Z ->
     (docOffsetHeight lay <= 0)%Z ->
       getContentHeight lay = FALLBACK_HEIGHT).
Proof.
  intros lay Hscroll.
  destruct (getContentHeight_spec lay) as (Hrect & Hdoc).
  split; [exact Hrect|]. split.
  - intros Hno. destruct (Hdoc Hno) as (Hmin & _). exact Hmin.
  - intros Hno H1 H2 H3. destruct (Hdoc Hno) as (_ & Hnone).
    destruct (Hnone H1 H2 H3) as (Hzero & _). apply Hzero. lia.
Qed.

Lemma getContentHeight_three_clauses_witness :
  getContentHeight
    {| containerHeight := Some (813 # 2); bodyScrollHeight := 900;
       bodyOffsetHeight := 880; docOffsetHeight := 890; innerWidth := 1024 |}
    = 407%Z /\
  getContentHeight
    {| containerHeight := Some 0; bodyScrollHeight := 0;
       bodyOffsetHeight := 0; docOffsetHeight := 0; innerWidth := 1024 |}
    = 400%Z.
Proof.
  split.
  - apply (getContentHeight_three_clauses
             {| containerHeight := Some (813 # 2); bodyScrollHeight := 900;
                bodyOffsetHeight := 880; docOffsetHeight := 890;
                innerWidth := 1024 |}) with (q := 813 # 2);
      [simpl; lia | reflexivity | reflexivity].
  - apply (getContentHeight_three_clauses
             {| containerHeight := Some 0; bodyScrollHeight := 0;
                bodyOffsetHeight := 0; docOffsetHeight := 0;
                innerWidth := 1024 |});
      simpl; try lia.
    unfold no_container_height; simpl. apply Qle_refl.
Defined.

(** ** Resize reports *)

Module ResizeFacts.

(** The change test of [sendResizeMessage]. *)
Lemma changed_iff (h w lastH lastW : Z) :
  ((1 <? Z.abs (h - lastH)) || negb (w =? lastW))%Z = true <->
  (1 < Z.abs (h - lastH))%Z \/ w <> lastW.
Proof.
  rewrite orb_true_iff, negb_true_iff, Z.ltb_lt, Z.eqb_neq. reflexivity.
Qed.

Lemma sendResizeMessage_sent lay st :
  (1 < Z.abs (getContentHeight lay - lastHeight st))%Z \/
  innerWidth lay <> lastWidth st ->
  sendResizeMessage true lay st =
    (set_last st (getContentHeight lay) (innerWidth lay),
     [resize_message (getContentHeight lay)]).
Proof.
  intros H. apply changed_iff in H. unfold sendResizeMessage. simpl.
  now rewrite H.
Qed.

Lemma sendResizeMessage_silent lay st :
  ~ ((1 < Z.abs (getContentHeight lay - lastHeight st))%Z \/
     innerWidth lay <> lastWidth st) ->
  sendResizeMessage true lay st = (st, []).
Proof.
  intros H. unfold sendResizeMessage. simpl.
  destruct ((1 <? Z.abs (getContentHeight lay - lastHeight st))%Z
            || negb (innerWidth lay =? lastWidth st)%Z) eqn:E; [|reflexivity].
  apply changed_iff in E. contradiction.
Qed.

(** Outside a frame neither operation does anything. *)
Lemma not_embedded_noop lay st :
  sendResizeMessage false lay st = (st, []) /\
  forceResize false lay st = (st, []).
Proof. split; reflexivity. Qed.

End ResizeFacts.

(** C3: in a framed document, for every resize state and every
    measurement, [sendResizeMessage] posts a resize message (one, carrying
    the measured height) exactly when the height differs from the last
    reported one by more than 1 or the width differs from the last reported
    one; and two calls in a row on the same measurements post at most one
    message between them. *)
Theorem sendResizeMessage_iff_changed :
  forall (lay : Layout) (st : State),
    let newHeight := getContentHeight lay in
    let newWidth := innerWidth lay in
    let first := sendResizeMessage true lay st in
    let second := sendResizeMessage true lay (fst first) in
    (snd first <> [] <->
       (1 < Z.abs (newHeight - lastHeight st))%Z \/ newWidth <> lastWidth st) /\
    (snd first = [] \/ snd first = [resize_message newHeight]) /\
    (List.length (snd first ++ snd second) <= 1)%nat /\
    snd second = [].
Proof.
  intros lay st newHeight newWidth first second.
  assert (Hcases :
    ((1 < Z.abs (newHeight - lastHeight st))%Z \/ newWidth <> lastWidth st) \/
    ~ ((1 < Z.abs (newHeight - lastHeight st))%Z \/ newWidth <> lastWidth st)).
  { destruct (Z.ltb_spec 1 (Z.abs (newHeight - lastHeight st)));
      [now left; left|].
    destruct (Z.eq_dec newWidth (lastWidth st)); [|now left; right].
    right. intros [?|?]; [lia|contradiction]. }
  assert (Hsecond : snd second = []).
  { subst second first.
    destruct Hcases as [H|H].
    - rewrite (ResizeFacts.sendResizeMessage_sent lay st H). cbn [fst].
      rewrite ResizeFacts.sendResizeMessage_silent; [reflexivity|].
      cbn [set_last lastHeight lastWidth]. rewrite Z.sub_diag.
      intros [?|?]; [simpl in *; lia | congruence].
    - rewrite (ResizeFacts.sendResizeMessage_silent lay st H). cbn [fst].
      now rewrite (ResizeFacts.sendResizeMessage_silent lay st H). }
  rewrite Hsecond, app_nil_r. subst first.
  destruct Hcases as [H|H].
  - rewrite (ResizeFacts.sendResizeMessage_sent lay st H). cbn [snd].
    split; [split; [intros _; exact H | discriminate]|].
    split; [now right|]. split; [simpl; lia | reflexivity].
  - rewrite (ResizeFacts.sendResizeMessage_silent lay st H). cbn [snd].
    split; [split; [congruence | intros Hc; contradiction]|].
    split; [now left|]. split; [simpl; lia | reflexivity].
Qed.

(** C9: in a framed document, for every prior resize state and every
    measurement, [forceResize] posts one resize message carrying the
    measured height, whatever the stored values, and then stores the
    measured height and width as [lastHeight] and [lastWidth]. *)
Theorem forceResize_always_sends :
  forall (lay : Layout) (st : State),
    snd (forceResize true lay st) = [resize_message (getContentHeight lay)] /\
    lastHeight (fst (forceResize true lay st)) = getContentHeight lay /\
    lastWidth (fst (forceResize true lay st)) = innerWidth lay.
Proof. intros lay st. unfold forceResize. simpl. auto. Qed.

(** ** The debounce timer *)

Module DebounceFacts.

Lemma debouncedResize_armed b st :
  pending_ok b st -> armed (debouncedResize b st) (cycles b).
Proof.
  intros Hok. unfold debouncedResize, armed, setTimeout.
  exists (nextTimerId b).
  destruct Hok as [Hnil | (id & due & Htimers & Hid)].
  - destruct (resizeTimer st); simpl; rewrite Hnil; auto.
  - rewrite Hid. simpl. rewrite Htimers. simpl.
    rewrite Nat.eqb_refl. simpl. auto.
Qed.

Lemma armed_pending_ok bs c : armed bs c -> pending_ok (fst bs) (snd bs).
Proof. intros (id & Ht & Hid & _). right. eauto. Qed.

Section Loop.
Variable embedded : bool.
Variable layoutAt : Z -> Layout.

(** Before the quiet period is over nothing fires. *)
Lemma advance_within_delay bs c g :
  armed bs c -> (0 <= g < DEBOUNCE_DELAY)%Z ->
  let bs' := advance embedded layoutAt g bs in
  timers (fst bs') = timers (fst bs) /\ snd bs' = snd bs /\
  cycles (fst bs') = c.
Proof.
  destruct bs as [b st]. intros (id & Ht & Hid & Hc) Hg. simpl in *.
  unfold advance. rewrite Ht. simpl.
  destruct (Z.leb_spec (now b + DEBOUNCE_DELAY) (now b + g)); [lia|].
  simpl. auto.
Qed.

(** Once the quiet period is over the timeout fires, once. *)
Lemma advance_after_delay bs c quiet :
  armed bs c -> (DEBOUNCE_DELAY <= quiet)%Z ->
  let bs' := advance embedded layoutAt quiet bs in
  timers (fst bs') = [] /\ cycles (fst bs') = S c.
Proof.
  destruct bs as [b st]. intros (id & Ht & Hid & Hc) Hq. simpl in *.
  unfold advance. rewrite Ht. simpl.
  destruct (Z.leb_spec (now b + DEBOUNCE_DELAY) (now b + quiet)); [|lia].
  simpl. unfold run_callback.
  destruct (sendResizeMessage embedded (layoutAt (now b + DEBOUNCE_DELAY)%Z) st).
  simpl. auto.
Qed.

Lemma last_default_irrelevant {A} (l : list A) (d d' : A) :
  l <> [] -> last l d = last l d'.
Proof.
  induction l as [|x l IH]; [congruence|]. intros _.
  destruct l as [|y l]; [reflexivity|].
  change (last (x :: y :: l) d) with (last (y :: l) d).
  change (last (x :: y :: l) d') with (last (y :: l) d').
  apply IH. discriminate.
Qed.

Lemma burst_from_nonempty gaps bs :
  burst_from embedded layoutAt gaps bs <> [].
Proof. destruct gaps; discriminate. Qed.

Lemma burst_from_armed gaps :
  forall bs c,
    armed bs c ->
    Forall (fun g => 0 <= g < DEBOUNCE_DELAY)%Z gaps ->
    Forall (fun s => (List.length (timers (fst s)) <= 1)%nat /\
                     cycles (fst s) = c)
           (burst_from embedded layoutAt gaps bs) /\
    armed (last (burst_from embedded layoutAt gaps bs) bs) c.
Proof.
  induction gaps as [|g gaps IH]; intros bs c Harmed Hgaps.
  - simpl. split; [|exact Harmed].
    constructor; [|constructor].
    destruct Harmed as (id & Ht & _ & Hc). rewrite Ht. simpl. auto.
  - inversion Hgaps as [|? ? Hg Hrest]; subst.
    destruct (advance_within_delay bs c g Harmed Hg) as (Ht1 & Hst1 & Hc1).
    set (bs1 := advance embedded layoutAt g bs) in *.
    assert (Hok1 : pending_ok (fst bs1) (snd bs1)).
    { destruct Harmed as (id & Ht & Hid & _). right.
      exists id, (now (fst bs) + DEBOUNCE_DELAY)%Z.
      rewrite Ht1, Hst1. auto. }
    pose proof (debouncedResize_armed _ _ Hok1) as Harmed2.
    rewrite Hc1 in Harmed2.
    destruct (IH _ c Harmed2 Hrest) as (Hall & Hlast).
    cbn [burst_from]. fold bs1. split.
    + constructor.
      { destruct Harmed as (id & Ht & _ & Hc). rewrite Ht. simpl. auto. }
      constructor; [|exact Hall].
      destruct Harmed as (id & Ht & _ & Hc). rewrite Ht1, Ht. simpl. auto.
    + pose proof (burst_from_nonempty gaps
                    (debouncedResize (fst bs1) (snd bs1))) as Hne.
      set (rest := burst_from embedded layoutAt gaps
                     (debouncedResize (fst bs1) (snd bs1))) in *.
      destruct rest as [|r rest']; [congruence|].
      change (last (bs :: bs1 :: r :: rest') bs) with (last (r :: rest') bs).
      rewrite (last_default_irrelevant _ bs (debouncedResize (fst bs1) (snd bs1)));
        [exact Hlast | discriminate].
Qed.

End Loop.

End DebounceFacts.

(** C6: a burst of calls of [debouncedResize], each less than 100 ms after
    the one before, started when at most the timeout stored in
    [resizeTimer] is pending: while the burst lasts at most one timeout is
    pending and no measurement-and-send cycle runs; a call leaves exactly
    its own new timeout pending, due 100 ms later; and after a quiet period
    of 100 ms or more exactly one cycle has run and no timeout is
    pending. *)
Theorem debouncedResize_burst_one_cycle :
  forall (embedded : bool) (layoutAt : Z -> Layout)
         (gaps : list Z) (quiet : Z) (b : Browser) (st : State),
    pending_ok b st ->
    Forall (fun g => 0 <= g < DEBOUNCE_DELAY)%Z gaps ->
    (DEBOUNCE_DELAY <= quiet)%Z ->
    let during := burst embedded layoutAt gaps (b, st) in
    let after :=
      last (burst_then_quiet embedded layoutAt gaps quiet (b, st)) (b, st) in
    Forall (fun s => (List.length (timers (fst s)) <= 1)%nat /\
                     cycles (fst s) = cycles b) during /\
    timers (fst (debouncedResize b st)) =
      [(nextTimerId b, (now b + DEBOUNCE_DELAY)%Z)] /\
    cycles (fst after) = S (cycles b) /\
    timers (fst after) = [].
Proof.
  intros embedded layoutAt gaps quiet b st Hok Hgaps Hquiet during after.
  pose proof (DebounceFacts.debouncedResize_armed b st Hok) as Harmed.
  destruct (DebounceFacts.burst_from_armed embedded layoutAt gaps _ _
              Harmed Hgaps) as (Hall & Hlast).
  split; [|split].
  - subst during. unfold burst. cbn [fst snd]. constructor; [|exact Hall].
    cbn beta. cbn [fst]. split; [|reflexivity].
    destruct Hok as [Hnil | (id & due & Htimers & _)].
    + rewrite Hnil. simpl. lia.
    + rewrite Htimers. simpl. lia.
  - clear - Hok. destruct b as [t n ts c o]. unfold pending_ok in Hok.
    cbn [timers] in Hok. unfold debouncedResize, setTimeout, clearTimeout.
    destruct Hok as [-> | (id & due & -> & ->)].
    + destruct (resizeTimer st); reflexivity.
    + cbn. rewrite Nat.eqb_refl. reflexivity.
  - subst after. unfold burst_then_quiet. rewrite last_last.
    unfold burst. cbn [fst snd].
    pose proof (DebounceFacts.burst_from_nonempty embedded layoutAt gaps
                  (debouncedResize b st)) as Hne.
    set (rest := burst_from embedded layoutAt gaps (debouncedResize b st)) in *.
    destruct rest as [|r rest']; [congruence|].
    change (last ((b, st) :: r :: rest') (b, st))
      with (last (r :: rest') (b, st)).
    rewrite (DebounceFacts.last_default_irrelevant _ (b, st)
               (debouncedResize b st)) by discriminate.
    destruct (DebounceFacts.advance_after_delay embedded layoutAt _ _ quiet
                Hlast Hquiet) as (Htimers & Hcycles).
    split; assumption.
Qed.

Lemma debouncedResize_burst_one_cycle_witness :
  let page := fun _ : Z =>
    {| containerHeight := Some (600 # 1); bodyScrollHeight := 600;
       bodyOffsetHeight := 600; docOffsetHeight := 600; innerWidth := 1024 |} in
  let start := {| now := 0; nextTimerId := 1; timers := []; cycles := 0;
                  outbox := [] |} in
  cycles (fst (last (burst_then_quiet true page [30; 99; 0]%Z 100
                       (start, initial_state))
                    (start, initial_state))) = 1%nat.
Proof.
  intros page start.
  apply (debouncedResize_burst_one_cycle true page [30; 99; 0]%Z 100%Z
           start initial_state).
  - left. reflexivity.
  - repeat constructor; unfold DEBOUNCE_DELAY; lia.
  - unfold DEBOUNCE_DELAY. lia.
Defined.

(** ** Transcripts *)

Module TranscriptFacts.

Lemma find_first {A} (f : A -> bool) (pre : list A) (x : A) (post : list A) :
  Forall (fun y => f y = false) pre -> f x = true ->
  find f (pre ++ x :: post)%list = Some x.
Proof.
  induction 1 as [|y pre Hy _ IH]; intros Hx; simpl.
  - now rewrite Hx.
  - rewrite Hy. now apply IH.
Qed.

Lemma find_split {A} (f : A -> bool) (l : list A) (x : A) :
  find f l = Some x ->
  exists pre post,
    l = (pre ++ x :: post)%list /\ Forall (fun y => f y = false) pre /\ f x = true.
Proof.
  induction l as [|y l IH]; simpl; [discriminate|].
  destruct (f y) eqn:Hy.
  - intros [= ->]. exists [], l. auto.
  - intros Hfind. destruct (IH Hfind) as (pre & post & -> & Hpre & Hx).
    exists (y :: pre), post. auto.
Qed.

End TranscriptFacts.

(** C8, as stated, fails: with an English and a French transcript both
    marked default, the initial load fetches the English entry, the first
    default-marked one, while the last default-marked entry is French. *)
Lemma loadDefaultTranscript_not_last_default :
  let en := {| tr_language := "en"; tr_url := "t/en.txt"; tr_default := true |} in
  let fr := {| tr_language := "fr"; tr_url := "t/fr.txt"; tr_default := true |} in
  (1 < List.length (filter tr_default [en; fr]))%nat /\
  last_default [en; fr] = Some fr /\
  loadDefaultTranscript [en; fr] = Some en /\
  loadDefaultTranscript [en; fr] <> last_default [en; fr].
Proof.
  intros en fr. split; [simpl; lia|]. split; [reflexivity|].
  split; [reflexivity|]. vm_compute. discriminate.
Qed.

(** C8, amended: the first default wins. For every transcript list with an
    entry marked default, the initial transcript load uses the first entry
    of the list that has the language of the first default-marked entry;
    that is the first default-marked entry itself when no entry before it
    has its language, in particular when the languages of the list are
    pairwise different. *)
Theorem loadDefaultTranscript_first_default :
  forall (pre : list Transcript) (d : Transcript) (post : list Transcript),
    Forall (fun t => tr_default t = false) pre ->
    tr_default d = true ->
    let ts := (pre ++ d :: post)%list in
    (exists before used after,
       ts = (before ++ used :: after)%list /\
       tr_language used = tr_language d /\
       Forall (fun t => tr_language t <> tr_language d) before /\
       loadDefaultTranscript ts = Some used) /\
    (Forall (fun t => tr_language t <> tr_language d) pre ->
       loadDefaultTranscript ts = Some d) /\
    (NoDup (map tr_language ts) -> loadDefaultTranscript ts = Some d).
Proof.
  intros pre d post Hpre Hd ts.
  assert (Hdefault : default_transcript ts = Some d).
  { unfold default_transcript. subst ts.
    now rewrite (TranscriptFacts.find_first tr_default pre d post Hpre Hd). }
  assert (Hload : loadDefaultTranscript ts = loadTranscript ts (tr_language d)).
  { unfold loadDefaultTranscript. now rewrite Hdefault. }
  assert (Hfirst :
    Forall (fun t => tr_language t <> tr_language d) pre ->
    loadDefaultTranscript ts = Some d).
  { intros Hlang. rewrite Hload. unfold loadTranscript. subst ts.
    apply TranscriptFacts.find_first.
    - eapply Forall_impl; [|exact Hlang]. intros t Ht. simpl in Ht.
      now apply String.eqb_neq.
    - apply String.eqb_refl. }
  split; [|split].
  - rewrite Hload. unfold loadTranscript.
    destruct (find (fun t => tr_language t =? tr_language d) ts) as [used|] eqn:Hfind.
    + destruct (TranscriptFacts.find_split _ _ _ Hfind)
        as (before & after & Hts & Hbefore & Hused).
      exists before, used, after. split; [exact Hts|].
      split; [now apply String.eqb_eq|]. split; [|reflexivity].
      eapply Forall_impl; [|exact Hbefore]. intros t Ht. simpl in Ht.
      now apply String.eqb_neq.
    + assert (Hin : In d ts)
        by (subst ts; apply in_or_app; right; now left).
      pose proof (find_none _ _ Hfind d Hin) as Hnone. simpl in Hnone.
      rewrite String.eqb_refl in Hnone. discriminate.
  - exact Hfirst.
  - intros Hnodup. apply Hfirst. subst ts.
    rewrite map_app in Hnodup. simpl in Hnodup.
    apply Forall_forall. intros t Ht Heq.
    apply NoDup_remove_2 in Hnodup. apply Hnodup.
    apply in_or_app. left. rewrite <- Heq. now apply in_map.
Qed.

Lemma loadDefaultTranscript_first_default_witness :
  let en := {| tr_language := "en"; tr_url := "t/en.txt"; tr_default := false |} in
  let fr := {| tr_language := "fr"; tr_url := "t/fr.txt"; tr_default := true |} in
  let de := {| tr_language := "de"; tr_url := "t/de.txt"; tr_default := true |} in
  loadDefaultTranscript [en; fr; de] = Some fr.
Proof.
  intros en fr de.
  apply (loadDefaultTranscript_first_default [en] fr [de]).
  - repeat constructor.
  - reflexivity.
  - repeat constructor; simpl; intuition discriminate.
Defined.

(** ** Loading the manifest *)

Module ManifestFacts.

Lemma keeps_src_ret {A} (a : A) : keeps_src (ret a).
Proof. intros p. reflexivity. Qed.

Lemma keeps_src_throw {A} (e : Exn) : keeps_src (@throw A e).
Proof. intros p. reflexivity. Qed.

Lemma keeps_src_ask {A} (f : Page -> A) : keeps_src (ask f).
Proof. intros p. reflexivity. Qed.

Lemma keeps_src_get : keeps_src get_config.
Proof. intros p. reflexivity. Qed.

Lemma keeps_src_emit a : keeps_src (emit a).
Proof. intros p. reflexivity. Qed.

Lemma keeps_src_prop {A} manifest (key : Manifest -> option A) :
  keeps_src (prop manifest key).
Proof. intros p. destruct manifest; reflexivity. Qed.

Lemma keeps_src_assign {A} (setter : Config -> A -> Config) (v : A) :
  (forall c, cfg_src (setter c v) = cfg_src c) -> keeps_src (assign setter v).
Proof. intros H p. simpl. apply H. Qed.

Lemma keeps_src_bind {A B} (m : M A) (k : A -> M B) :
  keeps_src m -> (forall a, keeps_src (k a)) -> keeps_src (bind m k).
Proof.
  intros Hm Hk p. unfold bind. specialize (Hm p).
  destruct (m p) as [p' [e|a]]; simpl in *; [exact Hm|].
  now rewrite Hk.
Qed.

Lemma keeps_src_try_catch {A} (body : M A) (handler : Exn -> M A) :
  keeps_src body -> (forall e, keeps_src (handler e)) ->
  keeps_src (try_catch body handler).
Proof.
  intros Hb Hh p. unfold try_catch. specialize (Hb p).
  destruct (body p) as [p' [e|a]]; simpl in *; [|exact Hb].
  now rewrite Hh.
Qed.

Ltac keeps_src_step :=
  repeat first
    [ apply keeps_src_ret | apply keeps_src_throw | apply keeps_src_ask
    | apply keeps_src_get | apply keeps_src_emit | apply keeps_src_prop
    | apply keeps_src_assign; intros; reflexivity
    | apply keeps_src_bind; [|intros]
    | match goal with
      | |- keeps_src (if ?b then _ else _) => destruct b
      | |- keeps_src (match ?x with _ => _ end) => destruct x
      | |- keeps_src (let '(_, _) := ?x in _) => destruct x
      end ].

Lemma keeps_src_updateTitle t : keeps_src (updateTitle t).
Proof. unfold updateTitle. keeps_src_step. Qed.

Lemma keeps_src_updateHeaderAfterManifest : keeps_src updateHeaderAfterManifest.
Proof. unfold updateHeaderAfterManifest. keeps_src_step. Qed.

Lemma keeps_src_createTranscriptUI : keeps_src createTranscriptUI.
Proof. unfold createTranscriptUI. keeps_src_step. Qed.

Lemma keeps_src_createAttributionFooter : keeps_src createAttributionFooter.
Proof. unfold createAttributionFooter. keeps_src_step. Qed.

Lemma keeps_src_loadManifest_try fetched : keeps_src (loadManifest_try fetched).
Proof.
  unfold loadManifest_try.
  keeps_src_step;
    first [ apply keeps_src_updateTitle
          | apply keeps_src_updateHeaderAfterManifest
          | apply keeps_src_createTranscriptUI
          | apply keeps_src_createAttributionFooter ].
Qed.

(** [loadManifest] never reads [manifest.src] and never writes
    [this.config.src]. *)
Lemma loadManifest_keeps_src fetched : keeps_src (loadManifest fetched).
Proof.
  unfold loadManifest. apply keeps_src_try_catch.
  - apply keeps_src_loadManifest_try.
  - intros e p. reflexivity.
Qed.

(** Whatever the fetch yields, [loadManifest] returns normally. *)
Lemma loadManifest_returns fetched p : snd (loadManifest fetched p) = inr tt.
Proof.
  unfold loadManifest, try_catch.
  destruct (loadManifest_try fetched p) as [p' [e|[]]]; reflexivity.
Qed.

End ManifestFacts.

(** C4: for every manifest fetch that fails (a rejected request, a response
    that is not ok such as a 404, or a body that is not JSON) and every
    page, [loadManifest] returns normally, hands one error to [logger.warn],
    and leaves the configuration and the document as they were. *)
Theorem loadManifest_failure_is_caught :
  forall (fetched : FetchResult) (p : Page),
    fetch_failed fetched = true ->
    snd (loadManifest fetched p) = inr tt /\
    config (fst (loadManifest fetched p)) = config p /\
    ui (fst (loadManifest fetched p)) = ui p /\
    exists error, fst (loadManifest fetched p) = add_warning p error.
Proof.
  intros fetched p Hfail.
  assert (H : exists error, loadManifest fetched p = (add_warning p error, inr tt)).
  { destruct fetched as [|ok statusText body]; simpl in Hfail.
    - exists FetchFailed. reflexivity.
    - destruct ok; simpl in Hfail.
      + destruct body; try discriminate. exists SyntaxError. reflexivity.
      + exists (Error ("Failed to load manifest: " ++ statusText)).
        reflexivity. }
  destruct H as (error & ->). simpl. repeat split. now exists error.
Qed.

Lemma loadManifest_failure_is_caught_witness :
  let o := {| opt_type := Some "video"; opt_title := Some "Lesson 1";
              opt_showHeader := Some true;
              opt_manifestUrl := Some "manifests/missing.json";
              opt_theme := None; opt_backgroundColor := None;
              opt_id := None; opt_src := Some "clip.mp4" |} in
  let notFound := Response false "Not Found" BodyInvalid in
  snd (loadManifest notFound (constructed_page o)) = inr tt /\
  config (fst (loadManifest notFound (constructed_page o))) =
    constructor_config o.
Proof.
  intros o notFound.
  destruct (loadManifest_failure_is_caught notFound (constructed_page o))
    as (Hret & Hconfig & _); [reflexivity|].
  split; [exact Hret | exact Hconfig].
Defined.

(** The wrapper's own [this.config]: [loadManifest] leaves its [src] as the
    constructor received it, and replaces its [type] by the manifest's only
    when the constructor received none or [auto]. *)
Theorem manifest_src_type_not_protected :
  let manifest := {| m_id := Some "lesson"; m_type := Some "video";
                     m_title := None; m_src := Some "a.mp4";
                     m_showHeader := None; m_transcripts := None;
                     m_attribution := None |} in
  let fetched := Response true "OK" (BodyManifest manifest) in
  let url := {| opt_type := None; opt_title := None; opt_showHeader := None;
                opt_manifestUrl := Some "m.json"; opt_theme := None;
                opt_backgroundColor := None; opt_id := None;
                opt_src := Some "b.mp4" |} in
  let url_pdf := {| opt_type := Some "pdf"; opt_title := None;
                    opt_showHeader := None;
                    opt_manifestUrl := Some "m.json"; opt_theme := None;
                    opt_backgroundColor := None; opt_id := None;
                    opt_src := Some "b.mp4" |} in
  cfg_src (resolved_config url fetched) = Some "b.mp4" /\
  cfg_type (resolved_config url fetched) = Some "video" /\
  cfg_src (resolved_config url_pdf fetched) = Some "b.mp4" /\
  cfg_type (resolved_config url_pdf fetched) = Some "pdf" /\
  (forall fetched' p,
     cfg_src (config (fst (loadManifest fetched' p))) = cfg_src (config p)).
Proof.
  intros manifest fetched url url_pdf.
  split; [reflexivity|]. split; [reflexivity|].
  split; [reflexivity|]. split; [reflexivity|].
  intros fetched' p. apply ManifestFacts.loadManifest_keeps_src.
Qed.



(** * Further properties of the code *)

(** ** Resize reports, continued *)

Module ResizeMoreFacts.

Lemma Qceiling_pos (q : Q) : 0 < q -> (0 < Qceiling q)%Z.
Proof.
  intros Hq. rewrite Zlt_Qlt.
  eapply Qlt_le_trans; [exact Hq | apply Qle_ceiling].
Qed.

Lemma min_list_pos l x :
  (0 < x)%Z -> Forall (fun v => 0 < v)%Z l -> (0 < min_list x l)%Z.
Proof.
  intros Hx Hl. destruct (HeightFacts.min_list_in l x) as [<-|Hin]; [exact Hx|].
  rewrite Forall_forall in Hl. now apply Hl.
Qed.

Lemma validHeights_pos lay : Forall (fun v => 0 < v)%Z (validHeights lay).
Proof.
  unfold validHeights. apply Forall_forall. intros v Hv.
  apply filter_In in Hv. destruct Hv as [_ Hv]. now apply Z.ltb_lt.
Qed.

Section Loop.
Variable embedded : bool.
Variable layoutAt : Z -> Layout.

(** Running the callbacks of the due timeouts: one cycle each, and the
    timer table is left alone. *)
Lemma run_callbacks (due : list (nat * Z)) :
  forall bs : Browser * State,
    let r := fold_left (fun acc t => run_callback embedded layoutAt (snd t) acc)
                       due bs in
    cycles (fst r) = (cycles (fst bs) + List.length due)%nat /\
    timers (fst r) = timers (fst bs) /\
    now (fst r) = now (fst bs) /\
    nextTimerId (fst r) = nextTimerId (fst bs).
Proof.
  induction due as [|t due IH]; intros bs; simpl.
  - repeat split; lia.
  - destruct (IH (run_callback embedded layoutAt (snd t) bs))
      as (Hc & Ht & Hn & Hi).
    rewrite Hc, Ht, Hn, Hi. clear.
    destruct bs as [b st]. unfold run_callback.
    destruct (sendResizeMessage embedded (layoutAt (snd t)) st).
    simpl. repeat split; lia.
Qed.

Lemma advance_table dt b st :
  let r := advance embedded layoutAt dt (b, st) in
  cycles (fst r) =
    (cycles b +
     List.length (filter (fun t => (snd t <=? now b + dt)%Z) (timers b)))%nat /\
  timers (fst r) =
    filter (fun t => negb (snd t <=? now b + dt)%Z) (timers b) /\
  now (fst r) = (now b + dt)%Z /\
  nextTimerId (fst r) = nextTimerId b.
Proof.
  unfold advance.
  match goal with
  | |- context [fold_left ?f ?due ?init] =>
      destruct (run_callbacks due init) as (Hc & Ht & Hn & Hi)
  end.
  simpl in *. auto.
Qed.

End Loop.

Lemma filter_partition_length {A} (f : A -> bool) (l : list A) :
  (List.length (filter f l) + List.length (filter (fun x => negb (f x)) l)
   = List.length l)%nat.
Proof.
  induction l as [|x l IH]; simpl; [reflexivity|].
  destruct (f x); simpl; lia.
Qed.

End ResizeMoreFacts.

(** X1: after [sendResizeMessage] has run in a framed document, the stored
    height is within one pixel of the measured height and the stored width
    is the measured width, whether or not a message was posted; so the width
    poll called next on the same layout does nothing. *)
Theorem sendResizeMessage_tracks_measurement :
  forall (lay : Layout) (st : State) (b : Browser),
    let st' := fst (sendResizeMessage true lay st) in
    (Z.abs (getContentHeight lay - lastHeight st') <= 1)%Z /\
    lastWidth st' = innerWidth lay /\
    widthPoll lay b st' = (b, st').
Proof.
  intros lay st b st'.
  assert (H : (Z.abs (getContentHeight lay - lastHeight st') <= 1)%Z /\
              lastWidth st' = innerWidth lay).
  { subst st'. unfold sendResizeMessage. cbn [negb].
    destruct (Z.ltb_spec 1 (Z.abs (getContentHeight lay - lastHeight st)));
      cbn [orb fst].
    - cbn [set_last lastHeight lastWidth]. rewrite Z.sub_diag. simpl. lia.
    - destruct (Z.eqb_spec (innerWidth lay) (lastWidth st)); cbn [negb fst].
      + split; [lia | congruence].
      + cbn [set_last lastHeight lastWidth]. rewrite Z.sub_diag. simpl. lia. }
  destruct H as (Hh & Hw). split; [exact Hh|]. split; [exact Hw|].
  unfold widthPoll. rewrite Hw, Z.eqb_refl. reflexivity.
Qed.

(** X2: [forceResize] resets the baseline of the change test: in a framed
    document, the [sendResizeMessage] that follows a [forceResize] posts a
    message exactly when its own measurement differs from the forced one by
    more than one pixel of height or by any width, whatever was stored
    before the [forceResize]. *)
Theorem forceResize_resets_baseline :
  forall (lay lay' : Layout) (st : State),
    let forced := fst (forceResize true lay st) in
    (snd (sendResizeMessage true lay' forced) <> [] <->
       (1 < Z.abs (getContentHeight lay' - getContentHeight lay))%Z \/
       innerWidth lay' <> innerWidth lay) /\
    snd (sendResizeMessage true lay forced) = [].
Proof.
  intros lay lay' st forced.
  assert (Hh : lastHeight forced = getContentHeight lay) by reflexivity.
  assert (Hw : lastWidth forced = innerWidth lay) by reflexivity.
  split.
  - rewrite <- Hh, <- Hw. unfold sendResizeMessage. cbn [negb].
    destruct ((1 <? Z.abs (getContentHeight lay' - lastHeight forced))%Z
              || negb (innerWidth lay' =? lastWidth forced)%Z) eqn:E; cbn [snd].
    + apply ResizeFacts.changed_iff in E. split; [auto | discriminate].
    + split; [congruence|]. intros H. apply ResizeFacts.changed_iff in H.
      congruence.
  - rewrite ResizeFacts.sendResizeMessage_silent; [reflexivity|].
    rewrite Hh, Hw, Z.sub_diag. intros [?|?]; [simpl in *; lia | congruence].
Qed.

(** X3: whenever the body's scroll height is not negative, the height
    [getContentHeight] returns, and so every height posted to the parent
    frame, is at least 1. *)
Theorem getContentHeight_positive :
  forall lay : Layout,
    (0 <= bodyScrollHeight lay)%Z -> (1 <= getContentHeight lay)%Z.
Proof.
  intros lay Hscroll.
  assert (Hfallback :
    (1 <= match validHeights lay with
          | h :: hs => min_list h hs
          | [] => if (bodyScrollHeight lay =? 0)%Z then FALLBACK_HEIGHT
                  else bodyScrollHeight lay
          end)%Z).
  { pose proof (ResizeMoreFacts.validHeights_pos lay) as Hpos.
    destruct (validHeights lay) as [|h hs].
    - destruct (Z.eqb_spec (bodyScrollHeight lay) 0);
        [unfold FALLBACK_HEIGHT|]; lia.
    - inversion Hpos; subst.
      assert (0 < min_list h hs)%Z
        by (apply ResizeMoreFacts.min_list_pos; assumption).
      lia. }
  unfold getContentHeight.
  destruct (containerHeight lay) as [q|]; [|exact Hfallback].
  destruct (Qle_bool q 0) eqn:Hq; cbn [negb]; [exact Hfallback|].
  assert (Hpos : 0 < q).
  { apply Qnot_le_lt. intros Hle. apply Qle_bool_iff in Hle. congruence. }
  pose proof (ResizeMoreFacts.Qceiling_pos q Hpos). lia.
Qed.

Lemma getContentHeight_positive_witness :
  (1 <= getContentHeight
          {| containerHeight := Some (1 # 3); bodyScrollHeight := 0;
             bodyOffsetHeight := 0; docOffsetHeight := 0;
             innerWidth := 320 |})%Z.
Proof.
  apply getContentHeight_positive. simpl. lia.
Defined.

(** X4: outside a frame the timeouts still fire, but they never post a
    message and never change the resize state, however far the clock moves
    and whatever is pending. *)
Theorem advance_not_embedded_silent :
  forall (layoutAt : Z -> Layout) (dt : Z) (b : Browser) (st : State),
    outbox (fst (advance false layoutAt dt (b, st))) = outbox b /\
    snd (advance false layoutAt dt (b, st)) = st.
Proof.
  intros layoutAt dt b st. unfold advance.
  set (due := filter (fun t => (snd t <=? now b + dt)%Z) (timers b)).
  set (b0 := {| now := (now b + dt)%Z; nextTimerId := nextTimerId b;
                timers := filter (fun t => negb (snd t <=? now b + dt)%Z)
                                 (timers b);
                cycles := cycles b; outbox := outbox b |}).
  change (outbox b) with (outbox b0). clearbody due b0.
  revert b0. induction due as [|t due IH]; intros b0; simpl; [auto|].
  rewrite app_nil_r.
  destruct (IH {| now := now b0; nextTimerId := nextTimerId b0;
                  timers := timers b0; cycles := S (cycles b0);
                  outbox := outbox b0 |}) as (Ho & Hs).
  simpl in Ho. auto.
Qed.

Module TriggerFacts.

Lemma triggerResize_accounted c0 k b :
  accounted c0 k b -> accounted c0 (S k) (triggerResize b).
Proof.
  intros (Hcount & Hdue). unfold triggerResize, setTimeout, accounted.
  cbn [fst cycles timers now]. split.
  - rewrite length_app. simpl. lia.
  - apply Forall_app. split; [exact Hdue|].
    constructor; [simpl; lia | constructor].
Qed.

Lemma advance_accounted embedded layoutAt c0 k g b st :
  (0 <= g)%Z -> accounted c0 k b ->
  accounted c0 k (fst (advance embedded layoutAt g (b, st))).
Proof.
  intros Hg (Hcount & Hdue).
  destruct (ResizeMoreFacts.advance_table embedded layoutAt g b st)
    as (Hc & Ht & Hn & _).
  unfold accounted. rewrite Hc, Ht, Hn. split.
  - pose proof (ResizeMoreFacts.filter_partition_length
                  (fun t : nat * Z => (snd t <=? now b + g)%Z) (timers b)).
    lia.
  - apply Forall_forall. intros t Hin. apply filter_In in Hin.
    rewrite Forall_forall in Hdue. specialize (Hdue t (proj1 Hin)).
    simpl in Hdue. lia.
Qed.

Lemma trigger_from_accounted embedded layoutAt gaps :
  forall c0 k bs,
    Forall (fun g => 0 <= g)%Z gaps ->
    accounted c0 k (fst bs) ->
    accounted c0 (k + List.length gaps)
              (fst (trigger_from embedded layoutAt gaps bs)).
Proof.
  induction gaps as [|g gaps IH]; intros c0 k bs Hgaps Hacc; simpl.
  - now rewrite Nat.add_0_r.
  - inversion Hgaps as [|? ? Hg Hrest]; subst.
    replace (k + S (List.length gaps))%nat with (S k + List.length gaps)%nat
      by lia.
    apply IH; [exact Hrest|]. cbn [fst].
    apply triggerResize_accounted.
    destruct bs as [b st]. now apply advance_accounted.
Qed.

End TriggerFacts.

(** X5: [triggerResize] does not coalesce. From a table with nothing
    pending, a series of calls of [triggerResize] at any non-negative gaps
    followed by 100 ms or more of quiet runs one measurement-and-send cycle
    for every call. *)
Theorem triggerResize_not_coalesced :
  forall (embedded : bool) (layoutAt : Z -> Layout)
         (gaps : list Z) (quiet : Z) (b : Browser) (st : State),
    timers b = [] ->
    Forall (fun g => 0 <= g)%Z gaps ->
    (100 <= quiet)%Z ->
    let final :=
      advance embedded layoutAt quiet
              (trigger_burst embedded layoutAt gaps (b, st)) in
    cycles (fst final) = (cycles b + S (List.length gaps))%nat /\
    timers (fst final) = [].
Proof.
  intros embedded layoutAt gaps quiet b st Hnil Hgaps Hquiet final.
  assert (Hstart : accounted (cycles b) 0 b).
  { unfold accounted. rewrite Hnil. simpl.
    split; [lia | constructor]. }
  apply TriggerFacts.triggerResize_accounted in Hstart.
  pose proof (TriggerFacts.trigger_from_accounted embedded layoutAt gaps
                (cycles b) 1 (triggerResize b, st) Hgaps Hstart)
    as (Hcount & Hdue).
  subst final. unfold trigger_burst. cbn [fst snd].
  destruct (trigger_from embedded layoutAt gaps (triggerResize b, st))
    as [b1 st1]. cbn [fst] in *.
  destruct (ResizeMoreFacts.advance_table embedded layoutAt quiet b1 st1)
    as (Hc & Ht & _).
  assert (Hall : filter (fun t : nat * Z => (snd t <=? now b1 + quiet)%Z)
                        (timers b1) = timers b1).
  { apply forallb_filter_id. apply forallb_forall. intros t Hin.
    rewrite Forall_forall in Hdue. specialize (Hdue t Hin). simpl in Hdue.
    apply Z.leb_le. lia. }
  pose proof (ResizeMoreFacts.filter_partition_length
                (fun t : nat * Z => (snd t <=? now b1 + quiet)%Z) (timers b1))
    as Hpart.
  rewrite Hall in Hc, Hpart. split; [lia|].
  rewrite Ht. apply length_zero_iff_nil. lia.
Qed.

Lemma triggerResize_not_coalesced_witness :
  let page := fun _ : Z =>
    {| containerHeight := Some (600 # 1); bodyScrollHeight := 600;
       bodyOffsetHeight := 600; docOffsetHeight := 600; innerWidth := 1024 |} in
  let start := {| now := 0; nextTimerId := 1; timers := []; cycles := 0;
                  outbox := [] |} in
  cycles (fst (advance true page 100
                 (trigger_burst true page [0; 10; 250]%Z
                    (start, initial_state)))) = 4%nat.
Proof.
  intros page start.
  apply (triggerResize_not_coalesced true page [0; 10; 250]%Z 100%Z
           start initial_state).
  - reflexivity.
  - repeat constructor; lia.
  - lia.
Defined.

Module CheckerFacts.

Section Run.
Variable maxChecks : nat.
Variable embedded : bool.

Lemma run_checker_snoc layouts lay st :
  run_checker maxChecks embedded (layouts ++ [lay])%list st =
  checker_tick maxChecks embedded
    (run_checker maxChecks embedded layouts st) lay.
Proof. unfold run_checker. now rewrite fold_left_app. Qed.

(** After [n] ticks the callback has run [min n limit] times, where the
    limit is [maxChecks], or 1 when [maxChecks] is 0. *)
Lemma run_checker_state layouts st :
  let limit := Nat.max 1 maxChecks in
  let r := run_checker maxChecks embedded layouts st in
  calls_of r = Nat.min (List.length layouts) limit /\
  checkCount (checker_of r) = calls_of r /\
  running (checker_of r) = (List.length layouts <? limit)%nat /\
  (List.length (posted_of r) <= calls_of r)%nat.
Proof.
  induction layouts as [|lay layouts IH] using rev_ind; intros limit r.
  - subst r limit. unfold run_checker, calls_of, checker_of, posted_of.
    cbn [fold_left fst snd new_checker checkCount running List.length].
    split; [now rewrite Nat.min_0_l|]. split; [reflexivity|].
    split; [symmetry; apply Nat.ltb_lt; lia | lia].
  - subst r. rewrite run_checker_snoc. cbn zeta in IH.
    destruct (run_checker maxChecks embedded layouts st)
      as [[[c st1] posted] calls].
    unfold calls_of, checker_of, posted_of in *. cbn [fst snd] in *.
    destruct IH as (Hcalls & Hcount & Hrun & Hposted).
    rewrite length_app. cbn [List.length]. fold limit in Hcalls, Hrun |- *.
    unfold checker_tick.
    destruct (running c) eqn:Hr.
    + symmetry in Hrun. apply Nat.ltb_lt in Hrun.
      destruct (sendResizeMessage embedded lay st1) as [st2 msgs] eqn:Hsend.
      cbn [fst snd checkCount running].
      assert (Hmsgs : (List.length msgs <= 1)%nat).
      { unfold sendResizeMessage in Hsend.
        destruct (negb embedded); [injection Hsend as _ <-; simpl; lia|].
        destruct ((1 <? Z.abs (getContentHeight lay - lastHeight st1))%Z
                  || negb (innerWidth lay =? lastWidth st1)%Z);
          injection Hsend as _ <-; simpl; lia. }
      rewrite length_app.
      split; [lia|]. split; [lia|]. split; [|lia].
      destruct (Nat.leb_spec maxChecks (S (checkCount c)));
        destruct (Nat.ltb_spec (List.length layouts + 1) limit);
        cbn [negb]; try reflexivity; subst limit; lia.
    + symmetry in Hrun. apply Nat.ltb_ge in Hrun.
      cbn [fst snd]. split; [lia|]. split; [lia|]. split; [|lia].
      rewrite Hr. symmetry. apply Nat.ltb_ge. lia.
Qed.

End Run.

End CheckerFacts.

(** X6: the polling intervals are bounded. Over any number of 500 ms ticks
    the dynamic-content checker calls [sendResizeMessage] on each of the
    first 60 ticks and the H5P fallback checker on each of the first 30,
    and never again: later ticks change nothing, and at most that many
    messages are posted. *)
Theorem polling_checkers_bounded :
  forall (embedded : bool) (layouts more : list Layout) (st : State),
    let dynamic := run_checker MAX_CHECKS embedded layouts st in
    let fallback := run_checker FALLBACK_MAX embedded layouts st in
    calls_of dynamic = Nat.min (List.length layouts) 60 /\
    calls_of fallback = Nat.min (List.length layouts) 30 /\
    (List.length (posted_of dynamic) <= 60)%nat /\
    (List.length (posted_of fallback) <= 30)%nat /\
    ((60 <= List.length layouts)%nat ->
       run_checker MAX_CHECKS embedded (layouts ++ more)%list st = dynamic).
Proof.
  intros embedded layouts more st dynamic fallback.
  destruct (CheckerFacts.run_checker_state MAX_CHECKS embedded layouts st)
    as (Hd & _ & Hrun & Hdp).
  destruct (CheckerFacts.run_checker_state FALLBACK_MAX embedded layouts st)
    as (Hf & _ & _ & Hfp).
  change (Nat.max 1 MAX_CHECKS) with 60%nat in *.
  change (Nat.max 1 FALLBACK_MAX) with 30%nat in *.
  fold dynamic in Hd, Hrun, Hdp. fold fallback in Hf, Hfp.
  split; [exact Hd|]. split; [exact Hf|].
  split; [lia|]. split; [lia|].
  intros Hlen. unfold run_checker. rewrite fold_left_app.
  fold (run_checker MAX_CHECKS embedded layouts st). fold dynamic.
  assert (Hstopped : running (checker_of dynamic) = false).
  { rewrite Hrun. apply Nat.ltb_ge. exact Hlen. }
  clearbody dynamic. clear - Hstopped.
  induction more as [|lay more IH]; [reflexivity|].
  cbn [fold_left]. replace (checker_tick MAX_CHECKS embedded dynamic lay)
    with dynamic; [exact IH|].
  destruct dynamic as [[[c st1] posted] calls].
  unfold checker_of in Hstopped. cbn [fst] in Hstopped.
  unfold checker_tick. now rewrite Hstopped.
Qed.

Lemma polling_checkers_bounded_witness :
  let lay := {| containerHeight := None; bodyScrollHeight := 500;
                bodyOffsetHeight := 480; docOffsetHeight := 490;
                innerWidth := 640 |} in
  run_checker MAX_CHECKS true (repeat lay 60 ++ [lay; lay])%list initial_state =
  run_checker MAX_CHECKS true (repeat lay 60) initial_state.
Proof.
  intros lay.
  apply (polling_checkers_bounded true (repeat lay 60) [lay; lay] initial_state).
  rewrite repeat_length. lia.
Defined.

(** ** Theme changes and teardown *)

Module ThemeFacts.

Lemma word_not_space c : is_word c = true -> is_space c = false.
Proof.
  destruct c as [[] [] [] [] [] [] [] []]; vm_compute; congruence.
Qed.

Lemma all_word_no_space s : all_word s = true -> has_space s = false.
Proof.
  induction s as [|c s IH]; simpl; [reflexivity|].
  intros H. apply andb_true_iff in H. destruct H as (Hc & Hs).
  now rewrite (word_not_space c Hc), IH.
Qed.

(** Inside a match the rest of a word is dropped. *)
Lemma strip_word_run s :
  all_word s = true -> strip_theme_from 0 true s = "".
Proof.
  induction s as [|c s IH]; simpl; [reflexivity|].
  intros H. apply andb_true_iff in H. destruct H as (Hc & Hs).
  rewrite Hc. now apply IH.
Qed.

Lemma strip_created_word old :
  old <> "" -> all_word old = true ->
  strip_theme_classes (created_className old) = "lo-wrapper ".
Proof.
  intros Hne Hword. destruct old as [|c old]; [congruence|].
  simpl in Hword. apply andb_true_iff in Hword. destruct Hword as (Hc & Hold).
  unfold strip_theme_classes, created_className.
  cbn. rewrite !Hc. now rewrite (strip_word_run old Hold).
Qed.

Lemma add_theme_token (prefix_tokens : list string) className theme :
  all_word theme = true ->
  class_tokens className = prefix_tokens ->
  mem ("theme-" ++ theme) prefix_tokens = false ->
  classList_add className ("theme-" ++ theme) =
    inr (String.concat " "
           (prefix_tokens ++ [("theme-" ++ theme)%string])%list).
Proof.
  intros Hword Htokens Hmem. unfold classList_add.
  cbn [append String.eqb].
  replace (has_space (String "t" (String "h" (String "e" (String "m"
            (String "e" (String "-" theme)))))))
    with (has_space theme) by reflexivity.
  rewrite (all_word_no_space theme Hword), Htokens.
  change (String "t" (String "h" (String "e" (String "m"
            (String "e" (String "-" theme))))))
    with ("theme-" ++ theme) in *.
  now rewrite Hmem.
Qed.

End ThemeFacts.

(** X7: [applyTheme] removes the old theme class only up to its first
    character that is not a word character. Applied to the wrapper element
    as [createWrapperStructure] wrote it, with a new theme made of word
    characters: an old theme made of word characters is replaced cleanly,
    but the old theme [high-contrast] leaves the class [-contrast] behind. *)
Theorem applyTheme_class_residue :
  forall (c : Config) (st : State) (bg : option string) (theme : string),
    all_word theme = true ->
    (forall old, old <> "" -> all_word old = true ->
       let r := applyTheme c theme
                  (Some {| className := created_className old;
                           backgroundAssigned := bg |}) st in
       option_map className (th_wrapper r) = Some (created_className theme) /\
       th_thrown r = None) /\
    (let r := applyTheme c theme
                (Some {| className := created_className "high-contrast";
                         backgroundAssigned := bg |}) st in
     option_map className (th_wrapper r) =
       Some ("lo-wrapper -contrast theme-" ++ theme) /\
     th_thrown r = None).
Proof.
  intros c st bg theme Hword. split.
  - intros old Hne Hold r. subst r. unfold applyTheme. cbn [className].
    rewrite (ThemeFacts.strip_created_word old Hne Hold).
    rewrite (ThemeFacts.add_theme_token ["lo-wrapper"] "lo-wrapper " theme
               Hword eq_refl eq_refl).
    split; reflexivity.
  - intros r. subst r. unfold applyTheme. cbn [className].
    change (strip_theme_classes (created_className "high-contrast"))
      with "lo-wrapper -contrast".
    rewrite (ThemeFacts.add_theme_token ["lo-wrapper"; "-contrast"]
               "lo-wrapper -contrast" theme Hword eq_refl eq_refl).
    split; reflexivity.
Qed.

Lemma applyTheme_class_residue_witness :
  let c := constructor_config
             {| opt_type := None; opt_title := None; opt_showHeader := None;
                opt_manifestUrl := None; opt_theme := None;
                opt_backgroundColor := None; opt_id := None;
                opt_src := Some "clip.mp4" |} in
  option_map className
    (th_wrapper (applyTheme c "dark"
                   (Some {| className := created_className "high-contrast";
                            backgroundAssigned := None |})
                   initial_state))
  = Some "lo-wrapper -contrast theme-dark".
Proof.
  intros c.
  apply (applyTheme_class_residue c initial_state None "dark" eq_refl).
Defined.

(** X8: the colour-scheme listener knows two themes only. With the wrapper
    element present, after the listener has run the current theme is [dark]
    when the dark query matches and [light] when it does not, and nothing
    is thrown; an event is dispatched exactly when the theme changed. So
    while the system asks for high contrast, the theme the listener leaves
    differs from the one [detectTheme] picks for the automatic theme. *)
Theorem themeListener_dark_or_light :
  forall (c : Config) (el : WrapperElement) (st : State) (matches : bool),
    let r := themeListener c matches (Some el) st in
    let newTheme := if matches then "dark" else "light" in
    currentTheme (th_state r) = newTheme /\
    th_thrown r = None /\
    (th_events r = [] <-> currentTheme st = newTheme) /\
    (forall mq, prefers_contrast_high mq = true ->
                currentTheme (th_state r) <> detectTheme (Some "auto") mq).
Proof.
  intros c el st matches r newTheme.
  assert (Happlied :
    forall t, t = "dark" \/ t = "light" ->
      currentTheme (th_state (applyTheme c t (Some el) st)) = t /\
      th_thrown (applyTheme c t (Some el) st) = None /\
      th_events (applyTheme c t (Some el) st) <> []).
  { intros t [-> | ->]; unfold applyTheme, classList_add; cbn;
      repeat split; discriminate. }
  assert (Hnew : newTheme = "dark" \/ newTheme = "light")
    by (subst newTheme; destruct matches; auto).
  assert (Hmain : currentTheme (th_state r) = newTheme /\
                  th_thrown r = None /\
                  (th_events r = [] <-> currentTheme st = newTheme)).
  { subst r. unfold themeListener. fold newTheme.
    destruct (String.eqb_spec newTheme (currentTheme st)) as [Heq|Hneq];
      cbn [negb].
    - cbn. split; [congruence|]. split; [reflexivity|]. split; congruence.
    - destruct (Happlied newTheme Hnew) as (Ht & Hx & He).
      split; [exact Ht|]. split; [exact Hx|].
      split; [intros H; contradiction | intros H; congruence]. }
  destruct Hmain as (Ht & Hx & He).
  split; [exact Ht|]. split; [exact Hx|]. split; [exact He|].
  intros mq Hcontrast. rewrite Ht. unfold detectTheme, system_theme.
  cbn. rewrite Hcontrast. subst newTheme. destruct matches; discriminate.
Qed.

Lemma themeListener_dark_or_light_witness :
  let c := constructor_config
             {| opt_type := None; opt_title := None; opt_showHeader := None;
                opt_manifestUrl := None; opt_theme := None;
                opt_backgroundColor := None; opt_id := None;
                opt_src := Some "clip.mp4" |} in
  let mq := {| prefers_contrast_high := true;
               prefers_color_scheme_dark := true |} in
  let el := {| className := created_className "high-contrast";
               backgroundAssigned := None |} in
  currentTheme
    (th_state (themeListener c true (Some el)
                 (set_currentTheme initial_state "high-contrast")))
  <> detectTheme (Some "auto") mq.
Proof.
  intros c mq el.
  apply (themeListener_dark_or_light c el
           (set_currentTheme initial_state "high-contrast") true).
  reflexivity.
Defined.

(** X9: [destroy] does not detach the theme listener. For a configuration
    with the automatic theme, after [setupThemeListener] and [destroy] the
    listener is still registered, and a later change of the system's colour
    scheme runs it as before. *)
Theorem destroy_keeps_theme_listener :
  forall (c : Config) (b : Browser) (st : State)
         (w : option WrapperElement) (matches : bool),
    is_auto (cfg_theme c) = true ->
    let mediaQuery := setupThemeListener c None in
    let destroyed := destroy mediaQuery b st in
    fst (fst destroyed) = Some [ThemeArrow] /\
    isReady (snd destroyed) = false /\
    color_scheme_changed c (fst (fst destroyed)) matches w (snd destroyed) =
      themeListener c matches w (snd destroyed).
Proof.
  intros c b st w matches Hauto mediaQuery destroyed.
  subst destroyed mediaQuery. unfold setupThemeListener. rewrite Hauto.
  unfold destroy. cbn. auto.
Qed.

Lemma destroy_keeps_theme_listener_witness :
  let c := constructor_config
             {| opt_type := None; opt_title := None; opt_showHeader := None;
                opt_manifestUrl := None; opt_theme := None;
                opt_backgroundColor := None; opt_id := None;
                opt_src := Some "clip.mp4" |} in
  let b := {| now := 0; nextTimerId := 1; timers := []; cycles := 0;
              outbox := [] |} in
  fst (fst (destroy (setupThemeListener c None) b initial_state)) =
    Some [ThemeArrow].
Proof.
  intros c b.
  apply (destroy_keeps_theme_listener c b initial_state None true).
  reflexivity.
Defined.

(** X10: [destroy] cancels the pending debounce timeout and nothing else
    of the resize machinery. When at most the timeout stored in
    [resizeTimer] is pending and its id is not 0, after [destroy] no timeout
    is pending, the wrapper is marked not ready, and the cancelled callback
    never runs: moving the clock runs no timeout callback. The 500 ms width
    poll is not stopped: a poll tick after [destroy] that finds a changed
    width sets a new timeout, which runs a measurement-and-send cycle
    100 ms later. *)
Theorem destroy_cancels_debounce :
  forall (mediaQuery : option MediaQueryList) (b : Browser) (st : State)
         (embedded : bool) (layoutAt : Z -> Layout) (dt : Z),
    pending_ok b st ->
    (forall id, resizeTimer st = Some id -> id <> 0%nat) ->
    let destroyed := destroy mediaQuery b st in
    timers (snd (fst destroyed)) = [] /\
    isReady (snd destroyed) = false /\
    cycles (fst (advance embedded layoutAt dt
                   (snd (fst destroyed), snd destroyed))) = cycles b /\
    (forall lay quiet,
       innerWidth lay <> lastWidth st ->
       (DEBOUNCE_DELAY <= quiet)%Z ->
       let polled := widthPoll lay (snd (fst destroyed)) (snd destroyed) in
       timers (fst polled) <> [] /\
       cycles (fst (advance embedded layoutAt quiet polled)) = S (cycles b)).
Proof.
  intros mediaQuery b st embedded layoutAt dt Hok Hid destroyed.
  assert (Htimers : timers (snd (fst destroyed)) = [] /\
                    cycles (snd (fst destroyed)) = cycles b).
  { subst destroyed. unfold destroy. cbn [fst snd].
    destruct Hok as [Hnil | (id & due & Ht & Hr)].
    - destruct (resizeTimer st) as [id|]; [|auto].
      destruct (Nat.eqb id 0); [auto|].
      unfold clearTimeout. cbn. rewrite Hnil. auto.
    - rewrite Hr. destruct (Nat.eqb_spec id 0) as [->|_].
      + exfalso. now apply (Hid 0%nat).
      + unfold clearTimeout. cbn. rewrite Ht. cbn.
        rewrite Nat.eqb_refl. auto. }
  destruct Htimers as (Ht & Hc).
  split; [exact Ht|]. split; [reflexivity|]. split.
  - destruct (ResizeMoreFacts.advance_table embedded layoutAt dt
                (snd (fst destroyed)) (snd destroyed)) as (Hcycles & _).
    rewrite Hcycles, Ht, Hc. simpl. lia.
  - intros lay quiet Hwidth Hquiet polled.
    assert (Hpolled : polled =
              debouncedResize (snd (fst destroyed)) (snd destroyed)).
    { subst polled. unfold widthPoll.
      change (lastWidth (snd destroyed)) with (lastWidth st).
      destruct (Z.eqb_spec (innerWidth lay) (lastWidth st));
        [contradiction | reflexivity]. }
    assert (Harmed : armed polled (cycles b)).
    { rewrite Hpolled, <- Hc.
      apply DebounceFacts.debouncedResize_armed. left. exact Ht. }
    split.
    + destruct Harmed as (id & Hid' & _). rewrite Hid'. discriminate.
    + apply (DebounceFacts.advance_after_delay embedded layoutAt polled
               (cycles b) quiet Harmed Hquiet).
Qed.

Lemma destroy_cancels_debounce_witness :
  let page := fun _ : Z =>
    {| containerHeight := Some (600 # 1); bodyScrollHeight := 600;
       bodyOffsetHeight := 600; docOffsetHeight := 600; innerWidth := 1024 |} in
  let start := {| now := 0; nextTimerId := 1; timers := []; cycles := 0;
                  outbox := [] |} in
  let armed := debouncedResize start initial_state in
  cycles (fst (advance true page 1000
                 (snd (fst (destroy None (fst armed) (snd armed))),
                  snd (destroy None (fst armed) (snd armed))))) = 0%nat.
Proof.
  intros page start armed.
  apply (destroy_cancels_debounce None (fst armed) (snd armed) true page 1000%Z).
  - right. exists 1%nat, 100%Z. split; reflexivity.
  - intros id H. cbn in H. injection H as <-. discriminate.
Defined.

(** X11: [destroy] does not cancel a timeout set by [triggerResize]: its id
    was never stored, so when the stored id is an older one (or none) the
    timeout is still pending after [destroy]. *)
Theorem destroy_keeps_trigger_timeout :
  forall (mediaQuery : option MediaQueryList) (b : Browser) (st : State),
    (forall id, resizeTimer st = Some id -> (id < nextTimerId b)%nat) ->
    In (nextTimerId b, (now b + 100)%Z)
       (timers (snd (fst (destroy mediaQuery (triggerResize b) st)))).
Proof.
  intros mediaQuery b st Hold. unfold destroy. cbn [fst snd].
  assert (Hin : In (nextTimerId b, (now b + 100)%Z) (timers (triggerResize b))).
  { unfold triggerResize, setTimeout. cbn. apply in_or_app. right. now left. }
  destruct (resizeTimer st) as [id|] eqn:Hr; [|exact Hin].
  destruct (Nat.eqb id 0); [exact Hin|].
  unfold clearTimeout. cbn [timers]. apply filter_In. split; [exact Hin|].
  cbn [fst]. specialize (Hold id eq_refl).
  destruct (Nat.eqb_spec (nextTimerId b) id); [lia|reflexivity].
Qed.

Lemma destroy_keeps_trigger_timeout_witness :
  let start := {| now := 0; nextTimerId := 1; timers := []; cycles := 0;
                  outbox := [] |} in
  let armed := debouncedResize start initial_state in
  In (2%nat, 100%Z)
     (timers (snd (fst (destroy None (triggerResize (fst armed)) (snd armed))))).
Proof.
  intros start armed.
  apply (destroy_keeps_trigger_timeout None (fst armed) (snd armed)).
  intros id H. cbn in H. injection H as <-. cbn. lia.
Defined.

(** ** The transcript toggle *)

(** X12: with the transcript section and its three elements present, after
    [toggleTranscript] the section displays what the visibility flag says.
    Toggling twice restores the resize state and visibility flag, restores
    a section that displayed the flag correctly, and sets two separate
    100 ms timeouts: the resize after a toggle is not debounced. *)
Theorem toggleTranscript_twice :
  forall (t1 t2 : Z) (sec : TranscriptSection) (st : State) (b : Browser),
    content_aria_hidden sec <> None ->
    toggle_aria_expanded sec <> None ->
    label_text sec <> None ->
    let once := toggleTranscript t1 (Some sec) st b in
    let twice := toggleTranscript t2 (tg_section once) (tg_state once)
                   (tg_browser once) in
    (exists sec1, tg_section once = Some sec1 /\
                  section_shows sec1 (transcriptVisible (tg_state once))) /\
    transcriptVisible (tg_state once) = negb (transcriptVisible st) /\
    tg_state twice = st /\
    (section_shows sec (transcriptVisible st) -> tg_section twice = Some sec) /\
    List.length (timers (tg_browser twice)) = S (S (List.length (timers b))).
Proof.
  intros t1 t2 sec st b Hc Ht Hl once twice.
  destruct sec as [[ch|] [te|] [lt|]]; cbn in Hc, Ht, Hl; try congruence.
  destruct st as [r th v lh lw rt].
  subst twice once. unfold toggleTranscript, section_shows.
  destruct v; cbn.
  - split; [eexists; split; [reflexivity | cbn; auto]|].
    split; [reflexivity|]. split; [reflexivity|].
    split; [intros (H1 & H2 & H3); congruence|].
    rewrite !length_app. simpl. lia.
  - split; [eexists; split; [reflexivity | cbn; auto]|].
    split; [reflexivity|]. split; [reflexivity|].
    split; [intros (H1 & H2 & H3); congruence|].
    rewrite !length_app. simpl. lia.
Qed.

Lemma toggleTranscript_twice_witness :
  let b := {| now := 0; nextTimerId := 1; timers := []; cycles := 0;
              outbox := [] |} in
  let once := toggleTranscript 10 (Some created_section) initial_state b in
  tg_state (toggleTranscript 20 (tg_section once) (tg_state once)
              (tg_browser once)) = initial_state.
Proof.
  intros b once.
  apply (toggleTranscript_twice 10 20 created_section initial_state b);
    discriminate.
Defined.

(** X13: without a transcript section [toggleTranscript] flips the
    visibility flag and does nothing else: no event, no timeout. The first
    toggle after the section has been created then hides the still hidden
    transcript: the section stays as created and the event dispatched is
    [transcript_hide]. *)
Theorem toggleTranscript_without_section :
  forall (t1 t2 : Z) (st : State) (b : Browser),
    let early := toggleTranscript t1 None st b in
    transcriptVisible (tg_state early) = negb (transcriptVisible st) /\
    tg_events early = [] /\
    tg_browser early = b /\
    (transcriptVisible st = false ->
     let first := toggleTranscript t2 (Some created_section)
                    (tg_state early) (tg_browser early) in
     tg_section first = Some created_section /\
     tg_events first =
       trackContentEvent t2 "transcript_hide" "Transcript" "toggle").
Proof.
  intros t1 t2 st b early.
  split; [reflexivity|]. split; [reflexivity|]. split; [reflexivity|].
  intros Hv first. subst first early. unfold toggleTranscript.
  cbn [tg_state tg_events tg_browser tg_section set_transcriptVisible
       transcriptVisible].
  rewrite Hv. cbn. split; reflexivity.
Qed.

Lemma toggleTranscript_without_section_witness :
  let b := {| now := 0; nextTimerId := 1; timers := []; cycles := 0;
              outbox := [] |} in
  let early := toggleTranscript 10 None initial_state b in
  tg_section (toggleTranscript 20 (Some created_section)
                (tg_state early) (tg_browser early)) = Some created_section.
Proof.
  intros b early.
  apply (toggleTranscript_without_section 10 20 initial_state b).
  reflexivity.
Defined.

(** ** Loading the manifest, continued *)

Module ManifestMoreFacts.

Ltac unfold_manifest :=
  unfold loadManifest, try_catch, loadManifest_try, manifest_header,
    manifest_transcripts, manifest_attribution, updateTitle,
    updateHeaderAfterManifest, createTranscriptUI, createAttributionFooter,
    bind, ret, throw, prop, get_config, assign, emit, ask.

Ltac case_if :=
  match goal with
  | |- context [if ?b then _ else _] => destruct b eqn:?
  end.

(** With a manifest object, the try block is the two assignments followed
    by its three parts. *)
Lemma try_blocks statusText m p :
  loadManifest_try (Response true statusText (BodyManifest m)) p =
  (manifest_header (Some m) (truthy (cfg_title (config p))) ;;;
   manifest_transcripts (Some m) ;;;
   manifest_attribution (Some m)) (merged m p).
Proof.
  unfold loadManifest_try, merged, bind, ret, get_config, assign, prop.
  cbn.
  destruct (truthy (cfg_title (config p))); cbn;
    destruct (is_auto (cfg_type (config p))); cbn; reflexivity.
Qed.

Lemma set_title_same c : set_title c (cfg_title c) = c.
Proof. destruct c; reflexivity. Qed.

Lemma loadManifest_config fetched p :
  config (fst (loadManifest fetched p)) =
  config (fst (loadManifest_try fetched p)).
Proof.
  unfold loadManifest, try_catch.
  destruct (loadManifest_try fetched p) as [p' [e|a]]; reflexivity.
Qed.

Lemma loadManifest_ui fetched p :
  ui (fst (loadManifest fetched p)) = ui (fst (loadManifest_try fetched p)).
Proof.
  unfold loadManifest, try_catch.
  destruct (loadManifest_try fetched p) as [p' [e|a]]; reflexivity.
Qed.

(** The header part leaves the configuration as it is: [updateTitle]
    assigns the title that is already there. *)
Lemma header_keeps_config manifest hadTitle p :
  config (fst (manifest_header manifest hadTitle p)) = config p.
Proof.
  unfold_manifest. destruct manifest as [m|]; cbn; [|reflexivity].
  repeat (case_if; cbn); try reflexivity.
  all: apply set_title_same.
Qed.

Lemma header_quiet m hadTitle : quiet (manifest_header (Some m) hadTitle).
Proof.
  intros p Hw. unfold_manifest. cbn.
  repeat (case_if; cbn); rewrite ?Hw in *; try discriminate;
    exists tt; auto.
Qed.

Lemma header_fetches manifest hadTitle p :
  fetches (ui (fst (manifest_header manifest hadTitle p))) = fetches (ui p).
Proof.
  unfold_manifest. destruct manifest as [m|]; cbn; [|reflexivity].
  repeat (case_if; cbn); try reflexivity;
    unfold fetches; rewrite flat_map_app; cbn; apply app_nil_r.
Qed.

Lemma transcripts_config m p :
  config (fst (manifest_transcripts (Some m) p)) =
  match m_transcripts m with
  | Some ts => set_transcripts (config p) (Some ts)
  | None => config p
  end.
Proof.
  unfold_manifest. cbn. destruct (m_transcripts m) as [[|t ts]|]; cbn;
    try reflexivity.
  case_if; cbn; [reflexivity|].
  destruct (loadDefaultTranscript (t :: ts)); reflexivity.
Qed.

Lemma transcripts_quiet m : quiet (manifest_transcripts (Some m)).
Proof.
  intros p Hw. unfold_manifest. cbn.
  destruct (m_transcripts m) as [[|t ts]|]; cbn; try (exists tt; now auto).
  rewrite Hw. cbn.
  destruct (loadDefaultTranscript (t :: ts)); cbn; exists tt; auto.
Qed.

Lemma transcripts_fetches m p :
  has_wrapper p = true ->
  fetches (ui (fst (manifest_transcripts (Some m) p))) =
  (fetches (ui p) ++
   match m_transcripts m with
   | Some ts =>
       match loadDefaultTranscript ts with
       | Some t => [tr_url t]
       | None => []
       end
   | None => []
   end)%list.
Proof.
  intros Hw. unfold_manifest. cbn.
  destruct (m_transcripts m) as [[|t ts]|]; cbn; rewrite ?app_nil_r;
    try reflexivity.
  rewrite Hw. cbn.
  destruct (loadDefaultTranscript (t :: ts)); cbn; unfold fetches;
    rewrite !flat_map_app; cbn; rewrite ?app_nil_r; reflexivity.
Qed.

Lemma attribution_config m p :
  config (fst (manifest_attribution (Some m) p)) =
  match m_attribution m with
  | Some a => set_attribution (config p) (Some a)
  | None => config p
  end.
Proof.
  unfold_manifest. cbn. destruct (m_attribution m) as [a|]; cbn;
    [|reflexivity].
  case_if; cbn; [reflexivity|].
  destruct (at_title a), (at_author a), (at_license a); reflexivity.
Qed.

Lemma attribution_quiet m : quiet (manifest_attribution (Some m)).
Proof.
  intros p Hw. unfold_manifest. cbn.
  destruct (m_attribution m) as [a|]; cbn; [|exists tt; now auto].
  rewrite Hw. cbn.
  destruct (at_title a), (at_author a), (at_license a); cbn; exists tt; auto.
Qed.

Lemma attribution_fetches m p :
  fetches (ui (fst (manifest_attribution (Some m) p))) = fetches (ui p).
Proof.
  unfold_manifest. cbn. destruct (m_attribution m) as [a|]; cbn;
    [|reflexivity].
  case_if; cbn; [reflexivity|].
  destruct (at_title a), (at_author a), (at_license a); cbn;
    try reflexivity; unfold fetches; rewrite flat_map_app; cbn;
    apply app_nil_r.
Qed.

(** Sequencing two parts. *)
Lemma bind_fst {A B} (m : M A) (k : M B) p :
  (exists a, snd (m p) = inr a) ->
  fst ((m ;;; k) p) = fst (k (fst (m p))) /\
  snd ((m ;;; k) p) = snd (k (fst (m p))).
Proof.
  intros (a & Ha). unfold bind. destruct (m p) as [p' [e|a']]; cbn in *;
    [discriminate | auto].
Qed.

Lemma bind_config {A B} (m : M A) (k : M B) p :
  config (fst ((m ;;; k) p)) = config (fst (k (fst (m p)))) \/
  config (fst ((m ;;; k) p)) = config (fst (m p)).
Proof.
  unfold bind. destruct (m p) as [p' [e|a]]; cbn; auto.
Qed.

End ManifestMoreFacts.

Module ManifestMergeFacts.
Import ManifestMoreFacts.

(** The three parts after the assignments keep the title and the type. *)
Lemma blocks_title_type m hadTitle q :
  let r := fst ((manifest_header (Some m) hadTitle ;;;
                 manifest_transcripts (Some m) ;;;
                 manifest_attribution (Some m)) q) in
  cfg_title (config r) = cfg_title (config q) /\
  cfg_type (config r) = cfg_type (config q).
Proof.
  intros r. subst r.
  assert (Ht : forall q',
    cfg_title (config (fst (manifest_transcripts (Some m) q'))) =
      cfg_title (config q') /\
    cfg_type (config (fst (manifest_transcripts (Some m) q'))) =
      cfg_type (config q')).
  { intros q'. rewrite transcripts_config.
    destruct (m_transcripts m); split; reflexivity. }
  assert (Ha : forall q',
    cfg_title (config (fst (manifest_attribution (Some m) q'))) =
      cfg_title (config q') /\
    cfg_type (config (fst (manifest_attribution (Some m) q'))) =
      cfg_type (config q')).
  { intros q'. rewrite attribution_config.
    destruct (m_attribution m); split; reflexivity. }
  pose proof (header_keeps_config (Some m) hadTitle q) as Hh.
  destruct (bind_config (manifest_header (Some m) hadTitle)
              (manifest_transcripts (Some m) ;;; manifest_attribution (Some m))
              q) as [-> | ->]; [|rewrite Hh; auto].
  set (q1 := fst (manifest_header (Some m) hadTitle q)) in *.
  destruct (bind_config (manifest_transcripts (Some m))
              (manifest_attribution (Some m)) q1) as [-> | ->].
  - destruct (Ha (fst (manifest_transcripts (Some m) q1))) as (-> & ->).
    destruct (Ht q1) as (-> & ->). rewrite Hh. auto.
  - destruct (Ht q1) as (-> & ->). rewrite Hh. auto.
Qed.

Lemma null_manifest statusText p :
  loadManifest_try (Response true statusText BodyNull) p = (p, inl TypeError).
Proof.
  destruct p as [c w ct ti u wr]. destruct c.
  unfold_manifest. cbn.
  repeat (case_if; cbn); reflexivity.
Qed.

End ManifestMergeFacts.

(** X14: how [loadManifest] merges title and type, for every fetch result
    and page. A configured type other than [auto] and a configured
    non-empty title are never changed. When the fetch delivers a manifest
    object, a type of [auto] is replaced by the manifest's type and an empty
    or missing title by the manifest's title, also when a later step of the
    method throws. *)
Theorem loadManifest_title_type_merge :
  forall (fetched : FetchResult) (p : Page),
    let p' := fst (loadManifest fetched p) in
    (is_auto (cfg_type (config p)) = false ->
       cfg_type (config p') = cfg_type (config p)) /\
    (truthy (cfg_title (config p)) = true ->
       cfg_title (config p') = cfg_title (config p)) /\
    (forall statusText m,
       fetched = Response true statusText (BodyManifest m) ->
       (is_auto (cfg_type (config p)) = true ->
          cfg_type (config p') = m_type m) /\
       (truthy (cfg_title (config p)) = false ->
          cfg_title (config p') = m_title m)).
Proof.
  intros fetched p p'. subst p'.
  rewrite ManifestMoreFacts.loadManifest_config.
  assert (Hobject : forall statusText m,
    fetched = Response true statusText (BodyManifest m) ->
    cfg_title (config (fst (loadManifest_try fetched p))) =
      (if truthy (cfg_title (config p)) then cfg_title (config p)
       else m_title m) /\
    cfg_type (config (fst (loadManifest_try fetched p))) =
      (if is_auto (cfg_type (config p)) then m_type m
       else cfg_type (config p))).
  { intros statusText m ->. rewrite ManifestMoreFacts.try_blocks.
    destruct (ManifestMergeFacts.blocks_title_type m
                (truthy (cfg_title (config p)))
                (merged m p)) as (-> & ->).
    split; reflexivity. }
  assert (Hother :
    (exists statusText m, fetched = Response true statusText (BodyManifest m)) \/
    config (fst (loadManifest_try fetched p)) = config p).
  { destruct fetched as [|[] statusText [| |m]]; try (right; reflexivity).
    - right. now rewrite ManifestMergeFacts.null_manifest.
    - left. eauto. }
  split; [|split].
  - intros Htype. destruct Hother as [(statusText & m & Hf) | ->];
      [|reflexivity].
    destruct (Hobject statusText m Hf) as (_ & ->). now rewrite Htype.
  - intros Htitle. destruct Hother as [(statusText & m & Hf) | ->];
      [|reflexivity].
    destruct (Hobject statusText m Hf) as (-> & _). now rewrite Htitle.
  - intros statusText m Hf. destruct (Hobject statusText m Hf) as (Ht & Hy).
    split; intros H; [rewrite Hy | rewrite Ht]; now rewrite H.
Qed.

Lemma loadManifest_title_type_merge_witness :
  let o := {| opt_type := None; opt_title := Some "From the URL";
              opt_showHeader := Some true;
              opt_manifestUrl := Some "m.json"; opt_theme := None;
              opt_backgroundColor := None; opt_id := None;
              opt_src := Some "b.mp4" |} in
  let m := {| m_id := None; m_type := Some "pdf";
              m_title := Some "From the manifest"; m_src := None;
              m_showHeader := None; m_transcripts := None;
              m_attribution := None |} in
  let p' := fst (loadManifest (Response true "OK" (BodyManifest m))
                   (constructed_page o)) in
  cfg_title (config p') = Some "From the URL" /\
  cfg_type (config p') = Some "pdf".
Proof.
  intros o m p'.
  destruct (loadManifest_title_type_merge
              (Response true "OK" (BodyManifest m)) (constructed_page o))
    as (_ & Htitle & Hobject).
  split.
  - apply Htitle. reflexivity.
  - apply (Hobject "OK" m eq_refl). reflexivity.
Defined.

(** X15: a manifest whose JSON is [null] changes nothing: for every page,
    [loadManifest] returns normally with the configuration and the document
    as they were, and hands a TypeError to [logger.warn]. *)
Theorem loadManifest_null_manifest :
  forall (statusText : string) (p : Page),
    loadManifest (Response true statusText BodyNull) p =
      (add_warning p TypeError, inr tt).
Proof.
  intros statusText p. unfold loadManifest, try_catch.
  now rewrite ManifestMergeFacts.null_manifest.
Qed.

(** X16: [loadManifest] is not atomic when a late step fails. If the wrapper
    element is missing while the header has to be inserted (header shown, no
    title configured, a title in the manifest), the TypeError is caught and
    handed to [logger.warn], but the title and type assignments have already
    happened, and the manifest's transcripts and attribution are never
    stored or shown. *)
Theorem loadManifest_late_failure :
  forall (statusText : string) (m : Manifest) (p : Page),
    has_wrapper p = false ->
    cfg_showHeader (config p) = true ->
    truthy (cfg_title (config p)) = false ->
    truthy (m_title m) = true ->
    loadManifest (Response true statusText (BodyManifest m)) p =
      (add_warning (merged m p) TypeError, inr tt) /\
    cfg_title (config (merged m p)) = m_title m /\
    cfg_transcripts (config (merged m p)) = cfg_transcripts (config p) /\
    cfg_attribution (config (merged m p)) = cfg_attribution (config p) /\
    ui (merged m p) = ui p.
Proof.
  intros statusText m p Hw Hshow Htitle Hm.
  assert (Hmerged_title : cfg_title (config (merged m p)) = m_title m).
  { unfold merged. cbn. now rewrite Htitle. }
  split; [|split; [exact Hmerged_title | repeat split]].
  unfold loadManifest, try_catch. rewrite ManifestMoreFacts.try_blocks.
  assert (Hheader :
    manifest_header (Some m) (truthy (cfg_title (config p))) (merged m p) =
      (merged m p, inl TypeError)).
  { rewrite Htitle.
    assert (Hqs : cfg_showHeader (config (merged m p)) = true)
      by exact Hshow.
    assert (Hqw : has_wrapper (merged m p) = false) by exact Hw.
    revert Hqs Hqw Hmerged_title. generalize (merged m p) as q.
    intros q Hqs Hqw Hqt.
    ManifestMoreFacts.unfold_manifest. unfold ret. cbn beta iota.
    rewrite Hm, Hqs. cbn beta iota delta [andb negb].
    rewrite Hqt, Hm, Hqs. cbn beta iota delta [orb negb].
    rewrite Hqw. reflexivity. }
  unfold bind at 1. now rewrite Hheader.
Qed.

Lemma loadManifest_late_failure_witness :
  let c := {| cfg_type := Some "auto"; cfg_title := Some "";
              cfg_showHeader := true; cfg_manifestUrl := Some "m.json";
              cfg_theme := Some "auto"; cfg_backgroundColor := None;
              cfg_id := None; cfg_src := None; cfg_transcripts := None;
              cfg_attribution := None |} in
  let p := {| config := c; has_wrapper := false; has_content := false;
              has_title := false; ui := []; warnings := [] |} in
  let m := {| m_id := None; m_type := Some "video";
              m_title := Some "Lesson"; m_src := Some "a.mp4";
              m_showHeader := None;
              m_transcripts :=
                Some [{| tr_language := "en"; tr_url := "t/en.txt";
                         tr_default := true |}];
              m_attribution := None |} in
  cfg_transcripts (config (merged m p)) = None /\
  cfg_title (config (merged m p)) = Some "Lesson".
Proof.
  intros c p m.
  destruct (loadManifest_late_failure "OK" m p) as (_ & Ht & Htr & _);
    try reflexivity.
  split; [exact Htr | exact Ht].
Defined.

(** X17: [loadManifest] reads four keys of the manifest only. Two manifests
    with the same type, title, transcripts and attribution give the same
    result on every page, whatever their [id], [src] and [showHeader]. *)
Theorem loadManifest_reads_four_keys :
  forall (ok : bool) (statusText : string) (m1 m2 : Manifest) (p : Page),
    m_type m1 = m_type m2 ->
    m_title m1 = m_title m2 ->
    m_transcripts m1 = m_transcripts m2 ->
    m_attribution m1 = m_attribution m2 ->
    loadManifest (Response ok statusText (BodyManifest m1)) p =
    loadManifest (Response ok statusText (BodyManifest m2)) p.
Proof.
  intros ok statusText m1 m2 p Hy Ht Hr Ha.
  destruct m1, m2. cbn in Hy, Ht, Hr, Ha. subst. reflexivity.
Qed.

Lemma loadManifest_reads_four_keys_witness :
  let o := {| opt_type := None; opt_title := None; opt_showHeader := Some true;
              opt_manifestUrl := Some "m.json"; opt_theme := None;
              opt_backgroundColor := None; opt_id := None;
              opt_src := Some "b.mp4" |} in
  let m1 := {| m_id := Some "one"; m_type := Some "video";
               m_title := Some "Lesson"; m_src := Some "a.mp4";
               m_showHeader := Some false; m_transcripts := None;
               m_attribution := None |} in
  let m2 := {| m_id := None; m_type := Some "video";
               m_title := Some "Lesson"; m_src := None;
               m_showHeader := Some true; m_transcripts := None;
               m_attribution := None |} in
  loadManifest (Response true "OK" (BodyManifest m1)) (constructed_page o) =
  loadManifest (Response true "OK" (BodyManifest m2)) (constructed_page o).
Proof.
  intros o m1 m2.
  apply (loadManifest_reads_four_keys true "OK" m1 m2 (constructed_page o));
    reflexivity.
Defined.

(** X18: a delivered manifest on a page that has its wrapper element. For
    every manifest object, [loadManifest] warns about nothing, stores the
    manifest's transcript list exactly as it is (order and duplicates
    kept) and its attribution, and starts at most one transcript fetch: none
    for a missing or empty list, otherwise the one [loadDefaultTranscript]
    selects. *)
Theorem loadManifest_delivered :
  forall (statusText : string) (m : Manifest) (p : Page),
    has_wrapper p = true ->
    let p' := fst (loadManifest (Response true statusText (BodyManifest m)) p) in
    warnings p' = warnings p /\
    cfg_transcripts (config p') =
      match m_transcripts m with
      | Some ts => Some ts
      | None => cfg_transcripts (config p)
      end /\
    cfg_attribution (config p') =
      match m_attribution m with
      | Some a => Some a
      | None => cfg_attribution (config p)
      end /\
    fetches (ui p') =
      (fetches (ui p) ++
       match m_transcripts m with
       | Some ts =>
           match loadDefaultTranscript ts with
           | Some t => [tr_url t]
           | None => []
           end
       | None => []
       end)%list.
Proof.
  intros statusText m p Hw p'.
  set (hadTitle := truthy (cfg_title (config p))).
  set (q0 := merged m p).
  set (q1 := fst (manifest_header (Some m) hadTitle q0)).
  set (q2 := fst (manifest_transcripts (Some m) q1)).
  set (q3 := fst (manifest_attribution (Some m) q2)).
  assert (Hw0 : has_wrapper q0 = true) by exact Hw.
  destruct (ManifestMoreFacts.header_quiet m hadTitle q0 Hw0)
    as (a1 & Hs1 & Hw1 & Hx1).
  destruct (ManifestMoreFacts.transcripts_quiet m q1 Hw1)
    as (a2 & Hs2 & Hw2 & Hx2).
  destruct (ManifestMoreFacts.attribution_quiet m q2 Hw2)
    as (a3 & Hs3 & Hw3 & Hx3).
  assert (Htry :
    loadManifest_try (Response true statusText (BodyManifest m)) p =
      (q3, inr a3)).
  { rewrite ManifestMoreFacts.try_blocks. fold hadTitle q0.
    destruct (ManifestMoreFacts.bind_fst
                (manifest_header (Some m) hadTitle)
                (manifest_transcripts (Some m) ;;;
                 manifest_attribution (Some m)) q0) as (Hf & Hs);
      [eauto|].
    destruct (ManifestMoreFacts.bind_fst
                (manifest_transcripts (Some m))
                (manifest_attribution (Some m)) q1) as (Hf' & Hs');
      [eauto|].
    fold q1 in Hf, Hs. fold q2 in Hf', Hs'.
    apply injective_projections; cbn [fst snd].
    - now rewrite Hf, Hf'.
    - now rewrite Hs, Hs'. }
  assert (Hp' : p' = q3).
  { subst p'. unfold loadManifest, try_catch. now rewrite Htry. }
  rewrite Hp'. clear Hp' p'.
  split; [|split; [|split]].
  - subst q3 q2 q1. now rewrite Hx3, Hx2, Hx1.
  - subst q3. rewrite ManifestMoreFacts.attribution_config.
    assert (Hq2 : cfg_transcripts (config q2) =
                  match m_transcripts m with
                  | Some ts => Some ts
                  | None => cfg_transcripts (config p)
                  end).
    { subst q2. rewrite ManifestMoreFacts.transcripts_config.
      subst q1. rewrite ManifestMoreFacts.header_keeps_config.
      destruct (m_transcripts m); reflexivity. }
    destruct (m_attribution m); exact Hq2.
  - subst q3. rewrite ManifestMoreFacts.attribution_config.
    destruct (m_attribution m); [reflexivity|].
    subst q2. rewrite ManifestMoreFacts.transcripts_config.
    subst q1. rewrite ManifestMoreFacts.header_keeps_config.
    destruct (m_transcripts m); reflexivity.
  - subst q3. rewrite ManifestMoreFacts.attribution_fetches.
    subst q2. rewrite (ManifestMoreFacts.transcripts_fetches m q1 Hw1).
    subst q1. now rewrite ManifestMoreFacts.header_fetches.
Qed.

Lemma loadManifest_delivered_witness :
  let o := {| opt_type := None; opt_title := None; opt_showHeader := None;
              opt_manifestUrl := Some "m.json"; opt_theme := None;
              opt_backgroundColor := None; opt_id := None;
              opt_src := Some "b.mp4" |} in
  let en := {| tr_language := "en"; tr_url := "t/en.txt";
               tr_default := false |} in
  let en2 := {| tr_language := "en"; tr_url := "t/en-v2.txt";
                tr_default := true |} in
  let m := {| m_id := None; m_type := Some "video"; m_title := None;
              m_src := None; m_showHeader := None;
              m_transcripts := Some [en; en2]; m_attribution := None |} in
  cfg_transcripts
    (config (fst (loadManifest (Response true "OK" (BodyManifest m))
                    (constructed_page o)))) = Some [en; en2].
Proof.
  intros o en en2 m.
  apply (loadManifest_delivered "OK" m (constructed_page o)).
  reflexivity.
Defined.

(** ** Transcripts, continued *)

Module TranscriptMoreFacts.

Lemma find_over_app {A} (f : A -> bool) (l1 l2 : list A) :
  find f (l1 ++ l2)%list =
  match find f l1 with
  | Some x => Some x
  | None => find f l2
  end.
Proof.
  induction l1 as [|x l1 IH]; simpl; [reflexivity|].
  destruct (f x); [reflexivity | exact IH].
Qed.

End TranscriptMoreFacts.

(** X19: [loadTranscript] returns the first entry of the list with the
    requested language, and nothing exactly when no entry has it. An entry
    whose language already occurs earlier in the list is therefore never
    reached: removing it changes no lookup, whatever language is asked
    for. *)
Theorem loadTranscript_first_match :
  forall (ts : list Transcript) (language : string),
    (forall t, loadTranscript ts language = Some t ->
       exists before after,
         ts = (before ++ t :: after)%list /\
         tr_language t = language /\
         Forall (fun e => tr_language e <> language) before) /\
    (loadTranscript ts language = None <->
       Forall (fun e => tr_language e <> language) ts) /\
    (forall before e mid shadowed after,
       ts = (before ++ e :: mid ++ shadowed :: after)%list ->
       tr_language e = tr_language shadowed ->
       loadTranscript ts language =
       loadTranscript (before ++ e :: mid ++ after)%list language).
Proof.
  intros ts language. split; [|split].
  - intros t Hfind. unfold loadTranscript in Hfind.
    destruct (TranscriptFacts.find_split _ _ _ Hfind)
      as (before & after & Hts & Hbefore & Ht).
    exists before, after. split; [exact Hts|].
    split; [now apply String.eqb_eq|].
    eapply Forall_impl; [|exact Hbefore]. intros e He. simpl in He.
    now apply String.eqb_neq.
  - unfold loadTranscript. split.
    + intros Hnone. apply Forall_forall. intros e Hin.
      pose proof (find_none _ _ Hnone e Hin) as He. simpl in He.
      now apply String.eqb_neq.
    + intros Hall.
      destruct (find (fun t => tr_language t =? language) ts) as [t|] eqn:Hfind;
        [|reflexivity].
      apply find_some in Hfind. destruct Hfind as (Hin & Ht).
      rewrite Forall_forall in Hall. apply String.eqb_eq in Ht.
      exfalso. exact (Hall t Hin Ht).
  - intros before e mid shadowed after -> Hlang. unfold loadTranscript.
    rewrite !TranscriptMoreFacts.find_over_app.
    destruct (find (fun t => tr_language t =? language) before);
      [reflexivity|].
    cbn [find]. destruct (tr_language e =? language) eqn:He; [reflexivity|].
    rewrite !TranscriptMoreFacts.find_over_app.
    destruct (find (fun t => tr_language t =? language) mid); [reflexivity|].
    cbn [find]. now rewrite <- Hlang, He.
Qed.

Lemma loadTranscript_first_match_witness :
  let en := {| tr_language := "en"; tr_url := "t/en.txt";
               tr_default := false |} in
  let fr := {| tr_language := "fr"; tr_url := "t/fr.txt";
               tr_default := false |} in
  let en2 := {| tr_language := "en"; tr_url := "t/en-v2.txt";
                tr_default := true |} in
  loadTranscript [en; fr; en2] "en" = loadTranscript [en; fr] "en".
Proof.
  intros en fr en2.
  apply (loadTranscript_first_match [en; fr; en2] "en") with
    (before := []) (e := en) (mid := [fr]) (shadowed := en2) (after := []);
    reflexivity.
Defined.

(** X20: when no entry is marked default, the initial transcript load uses
    the first entry of the list; and for an empty list nothing is loaded. *)
Theorem loadDefaultTranscript_without_default :
  forall (t : Transcript) (rest : list Transcript),
    Forall (fun e => tr_default e = false) (t :: rest) ->
    loadDefaultTranscript (t :: rest) = Some t /\
    loadDefaultTranscript [] = None.
Proof.
  intros t rest Hall. split; [|reflexivity].
  unfold loadDefaultTranscript, default_transcript.
  assert (Hnone : find tr_default (t :: rest) = None).
  { destruct (find tr_default (t :: rest)) as [d|] eqn:Hfind; [|reflexivity].
    apply find_some in Hfind. destruct Hfind as (Hin & Hd).
    rewrite Forall_forall in Hall. rewrite (Hall d Hin) in Hd. discriminate. }
  rewrite Hnone. cbn [hd_error]. unfold loadTranscript. cbn [find].
  now rewrite String.eqb_refl.
Qed.

Lemma loadDefaultTranscript_without_default_witness :
  let en := {| tr_language := "en"; tr_url := "t/en.txt";
               tr_default := false |} in
  let fr := {| tr_language := "fr"; tr_url := "t/fr.txt";
               tr_default := false |} in
  loadDefaultTranscript [en; fr] = Some en.
Proof.
  intros en fr.
  apply (loadDefaultTranscript_without_default en [fr]).
  repeat constructor.
Defined.

(** ** Content-type detection, continued *)

Module DetectMoreFacts.
Import JsString JsStringFacts ContentPlugins DetectTypeFacts.

Lemma split_no_dot e : has_char "." e = false -> split "." e = [e].
Proof.
  induction e as [|c e IH]; simpl; [reflexivity|].
  intros H. apply orb_false_iff in H. destruct H as (Hc & He).
  rewrite Hc, (IH He). reflexivity.
Qed.

Lemma split_at_dot p e :
  split "." (p ++ String "." e) = (split "." p ++ split "." e)%list.
Proof.
  induction p as [|c p IH]; simpl; [reflexivity|].
  destruct (Ascii.eqb c "."); rewrite IH; [reflexivity|].
  pose proof (split_nonempty "." p) as Hne.
  destruct (split "." p) as [|seg segs]; [congruence | reflexivity].
Qed.

Lemma pop_app (l1 l2 : list string) :
  l2 <> [] -> pop (l1 ++ l2)%list = pop l2.
Proof.
  intros Hne. unfold pop. induction l1 as [|x l1 IH]; [reflexivity|].
  cbn [app]. destruct (l1 ++ l2)%list as [|y l] eqn:E.
  - apply app_eq_nil in E. destruct E. congruence.
  - exact IH.
Qed.

(** The extension is the lower-cased text after the last dot. *)
Lemma ext_of_after_dot p e :
  has_char "." e = false -> ext_of (p ++ String "." e) = toLowerCase e.
Proof.
  intros He. unfold ext_of.
  rewrite split_at_dot, pop_app by apply split_nonempty.
  now rewrite (split_no_dot e He).
Qed.

Lemma has_char_app c a b : has_char c (a ++ b) = has_char c a || has_char c b.
Proof.
  induction a as [|x a IH]; simpl; [reflexivity|].
  now rewrite IH, orb_assoc.
Qed.

Lemma lower_char_mark c sep :
  sep = "?"%char \/ sep = "#"%char ->
  Ascii.eqb (lower_char c) sep = Ascii.eqb c sep.
Proof.
  intros [-> | ->]; destruct c as [[] [] [] [] [] [] [] []];
    vm_compute; reflexivity.
Qed.

Lemma has_char_toLowerCase sep s :
  sep = "?"%char \/ sep = "#"%char ->
  has_char sep (toLowerCase s) = has_char sep s.
Proof.
  intros Hsep. induction s as [|c s IH]; simpl; [reflexivity|].
  now rewrite (lower_char_mark c sep Hsep), IH.
Qed.

(** No documented extension contains a question mark or a hash. *)
Lemma documented_no_mark x t sep :
  sep = "?"%char \/ sep = "#"%char ->
  documented_type x = Some t -> has_char sep x = false.
Proof.
  intros Hsep. unfold documented_type, includes_arr, video_exts, model_exts.
  cbn [existsb].
  repeat match goal with
         | |- context [String.eqb x ?lit] =>
             destruct (String.eqb_spec x lit) as [->|_];
             [intros _; destruct Hsep as [-> | ->]; reflexivity|]
         end.
  cbn. discriminate.
Qed.

(** A source that contains [/h5p/] contains [h5p]. *)
Lemma includes_h5p_path s :
  includes s "/h5p/" = true -> includes s "h5p" = true.
Proof.
  induction s as [|c s IH]; [cbn; discriminate|].
  cbn [includes]. intros H. apply orb_true_iff in H.
  apply orb_true_iff. right.
  destruct H as [H | H]; [|now apply IH].
  clear IH.
  destruct s as [|c1 [|c2 [|c3 s]]]; cbn -[ascii_dec] in H;
    repeat match type of H with
           | context [ascii_dec ?a ?b] => destruct (ascii_dec a b); subst
           end; try discriminate.
  destruct s; reflexivity.
Qed.

End DetectMoreFacts.

(** X21: text after the extension defeats extension detection. The
    extension [detectType] looks at is the lower-cased text after the last
    dot of the source; so a source that ends in a dot, any extension, and a
    query string or fragment without dots, such as [clip.mp4?t=1], has no
    documented extension, and off the video hosts it is detected as [h5p]
    or [iframe]. *)
Theorem detectType_query_defeats_extension :
  forall (url_hostname : string -> option string)
         (p e q : string) (sep : ascii) (host : string),
    sep = "?"%char \/ sep = "#"%char ->
    has_char "." e = false ->
    has_char "." q = false ->
    let src := p ++ String "." (e ++ String sep q) in
    url_hostname src = Some host ->
    is_video_host host = false ->
    ext_of (p ++ String "." e) = toLowerCase e /\
    ext_of src = toLowerCase (e ++ String sep q) /\
    detectType url_hostname src = if is_h5p host src then "h5p" else "iframe".
Proof.
  intros url_hostname p e q sep host Hsep He Hq src Hurl Hhost.
  assert (Htail : has_char "." (e ++ String sep q) = false).
  { rewrite DetectMoreFacts.has_char_app, He. cbn. rewrite Hq.
    destruct Hsep as [-> | ->]; reflexivity. }
  assert (Hext : ext_of src = toLowerCase (e ++ String sep q))
    by (apply DetectMoreFacts.ext_of_after_dot; exact Htail).
  split; [now apply DetectMoreFacts.ext_of_after_dot|].
  split; [exact Hext|].
  assert (Hne : src <> "").
  { subst src. destruct p; discriminate. }
  assert (Hdoc : documented_type (ext_of src) = None).
  { destruct (documented_type (ext_of src)) as [t|] eqn:Ht; [|reflexivity].
    pose proof (DetectMoreFacts.documented_no_mark _ _ sep Hsep Ht) as Hmark.
    rewrite Hext, (DetectMoreFacts.has_char_toLowerCase sep _ Hsep),
      DetectMoreFacts.has_char_app in Hmark.
    cbn in Hmark. rewrite Ascii.eqb_refl, orb_true_r in Hmark. discriminate. }
  rewrite (DetectTypeFacts.detectType_undocumented _ _ _ Hne Hurl Hdoc).
  now rewrite Hhost.
Qed.

Lemma detectType_query_defeats_extension_witness :
  detectType same_origin_page "media/clip.mp4?t=1" = "iframe".
Proof.
  apply (detectType_query_defeats_extension same_origin_page
           "media/clip" "mp4" "t=1" "?" "example.org");
    try reflexivity.
  left. reflexivity.
Defined.

(** X22: the test for [/h5p/] never decides the outcome: the H5P test of
    [detectType] holds exactly when the hostname contains [h5p.org] or the
    source contains [h5p]. *)
Theorem detectType_h5p_path_test_redundant :
  forall host src : string,
    is_h5p host src = includes host "h5p.org" || includes src "h5p".
Proof.
  intros host src. unfold is_h5p.
  destruct (includes host "h5p.org"); [reflexivity|]. cbn [orb].
  destruct (includes src "/h5p/") eqn:Hpath; [|reflexivity].
  now rewrite (DetectMoreFacts.includes_h5p_path src Hpath).
Qed.

(** X23: [detectType] always returns one of the six types the plugin
    loader knows, never [auto]; the loader returns the iframe plugin for
    [pdf] and [iframe] and for every type it does not know, so for a
    detected type the iframe plugin is chosen exactly for [pdf] and
    [iframe]. *)
Theorem getPlugin_of_detected_type :
  forall (url_hostname : string -> option string) (src : string),
    let type := detectType url_hostname src in
    In type ["video"; "model"; "pdf"; "supersplat"; "h5p"; "iframe"] /\
    (getPlugin type = IframePlugin <-> type = "pdf" \/ type = "iframe") /\
    (forall other,
       ~ In other ["video"; "model"; "h5p"; "supersplat"] ->
       getPlugin other = IframePlugin).
Proof.
  intros url_hostname src type.
  assert (Hrange : In type ["video"; "model"; "pdf"; "supersplat"; "h5p"; "iframe"]).
  { subst type. unfold detectType.
    repeat match goal with
           | |- context [if ?b then _ else _] => destruct b
           | |- context [match ?x with Some _ => _ | None => _ end] =>
               destruct x
           end; cbn; tauto. }
  split; [exact Hrange|]. split.
  - cbn in Hrange.
    destruct Hrange as [<-|[<-|[<-|[<-|[<-|[<-|[]]]]]]]; cbn;
      split; intros H; try discriminate; auto;
      destruct H as [H|H]; discriminate.
  - intros other Hother. unfold getPlugin.
    repeat match goal with
           | |- context [String.eqb other ?lit] =>
               destruct (String.eqb_spec other lit) as [->|_]
           end; try reflexivity; exfalso; apply Hother; cbn; tauto.
Qed.

Lemma getPlugin_of_detected_type_witness :
  getPlugin "auto" = IframePlugin.
Proof.
  apply (getPlugin_of_detected_type same_origin_page "x").
  cbn. intros [H|[H|[H|[H|[]]]]]; discriminate.
Defined.

(** X24: a [youtu.be] link is a YouTube video for the video plugin but not
    a video for [detectType]. For every source on the host [youtu.be] that
    contains its host name and has no documented extension,
    [detectVideoType] answers [youtube] while [detectType] answers [h5p] or
    [iframe]. *)
Theorem detectType_misses_youtu_be :
  forall (url_hostname : string -> option string) (src : string),
    url_hostname src = Some "youtu.be" ->
    includes src "youtu.be" = true ->
    documented_type (ext_of src) = None ->
    VideoPlugin.detectVideoType src = "youtube" /\
    detectType url_hostname src =
      (if includes src "h5p" then "h5p" else "iframe") /\
    detectType url_hostname src <> "video".
Proof.
  intros url_hostname src Hurl Hinc Hdoc.
  assert (Hne : src <> "").
  { intros ->. cbn in Hinc. discriminate. }
  assert (Hdetect : detectType url_hostname src =
                    if includes src "h5p" then "h5p" else "iframe").
  { rewrite (DetectTypeFacts.detectType_undocumented _ _ _ Hne Hurl Hdoc).
    change (is_video_host "youtu.be") with false. cbn iota.
    rewrite detectType_h5p_path_test_redundant. reflexivity. }
  split; [|split; [exact Hdetect|]].
  - unfold VideoPlugin.detectVideoType.
    destruct (String.eqb_spec src ""); [contradiction|].
    now rewrite Hinc, orb_true_r.
  - rewrite Hdetect. destruct (includes src "h5p"); discriminate.
Qed.

Lemma detectType_misses_youtu_be_witness :
  detectType (fun _ => Some "youtu.be") "https://youtu.be/dQw4w9WgXcQ"
  <> "video".
Proof.
  apply (detectType_misses_youtu_be (fun _ => Some "youtu.be")
           "https://youtu.be/dQw4w9WgXcQ"); reflexivity.
Defined.

(** ** Escaping *)

Module EscapeFacts.
Import ContentPlugins.

Lemma has_char_concat c a b : has_char c (a ++ b) = has_char c a || has_char c b.
Proof.
  induction a as [|x a IH]; simpl; [reflexivity|].
  now rewrite IH, orb_assoc.
Qed.

Ltac case_char c :=
  unfold escape_char, is_escaped;
  destruct (Ascii.eqb_spec c "&") as [->|?];
  [|destruct (Ascii.eqb_spec c nbsp) as [->|?];
    [|destruct (Ascii.eqb_spec c "<") as [->|?];
      [|destruct (Ascii.eqb_spec c ">") as [->|?]]]].

Lemma escape_char_no_markup c :
  has_char "<" (escape_char c) = false /\ has_char ">" (escape_char c) = false.
Proof.
  case_char c; try (split; reflexivity).
  cbn. split; rewrite orb_false_r; now apply Ascii.eqb_neq.
Qed.

Lemma append_assoc (a b c : string) : (a ++ b) ++ c = a ++ (b ++ c).
Proof.
  induction a as [|x a IH]; simpl; [reflexivity|]. now rewrite IH.
Qed.

Lemma escapeHtml_app a b : escapeHtml (a ++ b) = escapeHtml a ++ escapeHtml b.
Proof.
  induction a as [|c a IH]; simpl; [reflexivity|].
  rewrite IH. now rewrite append_assoc.
Qed.

Lemma escape_char_plain c :
  is_escaped c = false -> escape_char c = String c EmptyString.
Proof.
  case_char c; cbn; try discriminate. reflexivity.
Qed.

End EscapeFacts.

(** X25: the text [escapeHtml] returns contains no [<] and no [>], whatever
    the input: it cannot open or close a tag. *)
Theorem escapeHtml_no_markup :
  forall text : string,
    ContentPlugins.has_char "<" (escapeHtml text) = false /\
    ContentPlugins.has_char ">" (escapeHtml text) = false.
Proof.
  induction text as [|c text (IHlt & IHgt)]; [split; reflexivity|].
  cbn [escapeHtml]. rewrite !EscapeFacts.has_char_concat, IHlt, IHgt.
  destruct (EscapeFacts.escape_char_no_markup c) as (-> & ->).
  split; reflexivity.
Qed.

(** X26: [escapeHtml] changes the four characters [&], [<], [>] and the
    no-break space only. A text without them is returned as it is, and a
    quotation mark or apostrophe inside any text is passed through, so the
    result is not safe inside an attribute value. *)
Theorem escapeHtml_leaves_quotes :
  forall (text before after : string) (quote : ascii),
    (has_escaped text = false -> escapeHtml text = text) /\
    (quote = ascii_of_N 34 \/ quote = ascii_of_N 39 ->
     escapeHtml (before ++ String quote after) =
       escapeHtml before ++ String quote (escapeHtml after)).
Proof.
  intros text before after quote. split.
  - induction text as [|c text IH]; [reflexivity|]. cbn [has_escaped escapeHtml].
    intros H. apply orb_false_iff in H. destruct H as (Hc & Ht).
    now rewrite (EscapeFacts.escape_char_plain c Hc), (IH Ht).
  - intros Hq. rewrite EscapeFacts.escapeHtml_app. cbn [escapeHtml].
    rewrite EscapeFacts.escape_char_plain; [reflexivity|].
    destruct Hq as [-> | ->]; reflexivity.
Qed.

Lemma escapeHtml_leaves_quotes_witness :
  escapeHtml "Failed to load a.mp4" = "Failed to load a.mp4".
Proof.
  apply (escapeHtml_leaves_quotes "Failed to load a.mp4" "" "" "x").
  reflexivity.
Defined.

(** ** The logger *)

Module LoggerFacts.
Import JsString Logger.

Lemma indexOf_levels_unknown current :
  includes_arr levels current = false -> indexOf levels current = (-1)%Z.
Proof.
  unfold includes_arr, levels, indexOf. cbn [existsb indexOf_from].
  intros H. repeat (apply orb_false_iff in H; destruct H as (?H & H)).
  repeat match goal with
         | Hx : String.eqb current ?lit = false |- _ =>
             rewrite String.eqb_sym in Hx; rewrite Hx; clear Hx
         end.
  reflexivity.
Qed.

Lemma indexOf_levels_lower level : (-1 <= indexOf levels level)%Z.
Proof.
  unfold indexOf, levels. cbn [indexOf_from].
  repeat match goal with
         | |- context [String.eqb ?lit level] => destruct (String.eqb lit level)
         end; cbn; lia.
Qed.

Lemma valid_level_cases current :
  includes_arr levels current = true ->
  current = "debug" \/ current = "info" \/ current = "warn" \/ current = "error".
Proof.
  unfold includes_arr, levels. cbn [existsb].
  repeat match goal with
         | |- context [String.eqb current ?lit] =>
             destruct (String.eqb_spec current lit); [tauto|]
         end.
  cbn. discriminate.
Qed.

End LoggerFacts.

(** X27: a log level the logger does not know turns everything on. When
    the configured [VITE_LOG_LEVEL], lower-cased, is not one of [debug],
    [info], [warn] and [error], every method of the logger prints, and
    [shouldLog] holds of every level name. *)
Theorem logger_unknown_level_prints_all :
  forall (configured level : string),
    configured <> "" ->
    JsString.includes_arr Logger.levels (JsString.toLowerCase configured)
      = false ->
    Logger.shouldLog (Logger.initial_level (Some configured)) level = true /\
    Logger.prints (Logger.initial_level (Some configured)) level = true.
Proof.
  intros configured level Hne Hunknown.
  assert (Hshould :
    Logger.shouldLog (Logger.initial_level (Some configured)) level = true).
  { unfold Logger.shouldLog, Logger.initial_level.
    destruct (String.eqb_spec configured ""); [contradiction|].
    rewrite (LoggerFacts.indexOf_levels_unknown _ Hunknown).
    apply Z.leb_le. apply LoggerFacts.indexOf_levels_lower. }
  split; [exact Hshould|]. unfold Logger.prints.
  destruct (level =? "error"); [reflexivity | exact Hshould].
Qed.

Lemma logger_unknown_level_prints_all_witness :
  Logger.prints (Logger.initial_level (Some "Verbose")) "debug" = true.
Proof.
  apply (logger_unknown_level_prints_all "Verbose" "debug");
    [discriminate | reflexivity].
Defined.

(** X28: [setLevel] keeps a known level known: starting from one of the
    four levels, after any series of [setLevel] calls, with known or
    unknown arguments, the level is one of the four; then [logger.debug]
    prints only at level [debug], [logger.warn] prints unless the level is
    [error], and [logger.error] always prints. *)
Theorem logger_setLevel_keeps_known :
  forall (current : string) (calls : list string),
    JsString.includes_arr Logger.levels current = true ->
    let final := fold_left Logger.setLevel calls current in
    JsString.includes_arr Logger.levels final = true /\
    (Logger.prints final "debug" = true <-> final = "debug") /\
    (Logger.prints final "warn" = false <-> final = "error") /\
    Logger.prints final "error" = true.
Proof.
  intros current calls Hknown final.
  assert (Hfinal : JsString.includes_arr Logger.levels final = true).
  { subst final. revert current Hknown.
    induction calls as [|l calls IH]; intros current Hknown; [exact Hknown|].
    cbn [fold_left]. apply IH. unfold Logger.setLevel.
    destruct (JsString.includes_arr Logger.levels l) eqn:Hl; assumption. }
  split; [exact Hfinal|].
  destruct (LoggerFacts.valid_level_cases final Hfinal)
    as [-> | [-> | [-> | ->]]]; cbn;
    repeat split; intros H; try discriminate; reflexivity.
Qed.

Lemma logger_setLevel_keeps_known_witness :
  fold_left Logger.setLevel ["trace"; "info"; "loud"] "warn" = "info" /\
  (Logger.prints (fold_left Logger.setLevel ["trace"; "info"; "loud"] "warn")
     "warn" = false <->
   fold_left Logger.setLevel ["trace"; "info"; "loud"] "warn" = "error").
Proof.
  split; [reflexivity|].
  apply (logger_setLevel_keeps_known "warn" ["trace"; "info"; "loud"]).
  reflexivity.
Defined.
